(** * Plugin registry, call isolation and result aggregation of
    [lib/plugins.ts], shallowly embedded.

    JavaScript values are modelled by [jsval]; the mutable fields of a
    [Plugins] instance ([assertions], [resultsReported]) form [state]; the
    code runs in [M], a state monad with JavaScript exceptions and a log of
    the lines written through [logger]. *)

From Stdlib Require Import List String Ascii Bool Arith NArith Lia Permutation DecimalNat.
Import ListNotations.
Open Scope list_scope.
Open Scope string_scope.

(** ** JavaScript values *)

(** An object carries its [message] and [stack] properties (strings when
    present, [None] when they read as [undefined]) and [str], the result of
    converting it to a string. *)
Inductive jsval : Type :=
| JUndef
| JNull
| JBool (b : bool)
| JStr (s : string)
| JObj (message : option string) (stack : option string) (str : string).

(** Truthiness, as used by [||] and [if]. *)
Definition truthy (v : jsval) : bool :=
  match v with
  | JUndef | JNull => false
  | JBool b => b
  | JStr s => negb (String.eqb s "")
  | JObj _ _ _ => true
  end.

(** [a || b] *)
Definition js_or (a b : jsval) : jsval := if truthy a then a else b.

(** String conversion, as performed by [+] on a string operand. *)
Definition js_to_string (v : jsval) : string :=
  match v with
  | JUndef => "undefined"
  | JNull => "null"
  | JBool true => "true"
  | JBool false => "false"
  | JStr s => s
  | JObj _ _ s => s
  end.

Definition opt_str (o : option string) : jsval :=
  match o with Some s => JStr s | None => JUndef end.

Definition type_error (s : string) : jsval :=
  JObj (Some s) None ("TypeError: " ++ s).

(** Property read [e.message]: a [TypeError] on [null] and [undefined],
    [undefined] on primitives that have no such property. *)
Definition get_message (e : jsval) : option jsval :=
  match e with
  | JUndef | JNull => None
  | JObj m _ _ => Some (opt_str m)
  | _ => Some JUndef
  end.

(** Property read [e.stack]. *)
Definition get_stack (e : jsval) : option (option string) :=
  match e with
  | JUndef | JNull => None
  | JObj _ st _ => Some st
  | _ => Some None
  end.

Definition nullish (e : jsval) : bool :=
  match e with JUndef | JNull => true | _ => false end.

(** Decimal rendering of a number, for ['Plugin #' + i]. *)
Fixpoint uint_to_string (d : Decimal.uint) : string :=
  match d with
  | Decimal.Nil => ""
  | Decimal.D0 d => "0" ++ uint_to_string d
  | Decimal.D1 d => "1" ++ uint_to_string d
  | Decimal.D2 d => "2" ++ uint_to_string d
  | Decimal.D3 d => "3" ++ uint_to_string d
  | Decimal.D4 d => "4" ++ uint_to_string d
  | Decimal.D5 d => "5" ++ uint_to_string d
  | Decimal.D6 d => "6" ++ uint_to_string d
  | Decimal.D7 d => "7" ++ uint_to_string d
  | Decimal.D8 d => "8" ++ uint_to_string d
  | Decimal.D9 d => "9" ++ uint_to_string d
  end.

Definition nat_to_string (n : nat) : string := uint_to_string (Nat.to_uint n).

(** ** State, results and the monad *)

(** An assertion record; [errorMsg] and [stackTrace] are [None] when the
    property is absent from the object. *)
Record assertion : Type := mkAssertion {
  passed : bool;
  errorMsg : option jsval;
  stackTrace : option string
}.

(** The arrays of the assertion store [this.assertions], a JavaScript
    object used as a map from spec names, kept as an association list in
    its enumeration order.  A name of [Object.prototype] never holds an
    array there; the own entries such names can get are kept by [inst]. *)
Definition store := list (string * list assertion).

Record state : Type := mkState {
  assertions : store;
  resultsReported : bool
}.

Definition initial_state : state := mkState [] false.

Inductive res (A : Type) : Type :=
| Ok (a : A)
| Throws (e : jsval).
Arguments Ok {A} a.
Arguments Throws {A} e.

Definition M (A : Type) : Type := state -> (res A * state * list string).

Definition ret {A} (a : A) : M A := fun st => (Ok a, st, []).

Definition throw {A} (e : jsval) : M A := fun st => (Throws e, st, []).

Definition bind {A B} (m : M A) (f : A -> M B) : M B := fun st =>
  match m st with
  | (Ok a, st1, l1) =>
      match f a st1 with (r, st2, l2) => (r, st2, app l1 l2) end
  | (Throws e, st1, l1) => (Throws e, st1, l1)
  end.

Notation "x <- m ;; k" := (bind m (fun x => k))
  (at level 61, m at next level, right associativity).
Notation "m ;;; k" := (bind m (fun _ => k))
  (at level 61, right associativity).

Definition get : M state := fun st => (Ok st, st, []).
Definition put (st : state) : M unit := fun _ => (Ok tt, st, []).
Definition log (s : string) : M unit := fun st => (Ok tt, st, [s]).

Fixpoint mapM {A B} (f : A -> M B) (l : list A) : M (list B) :=
  match l with
  | [] => ret []
  | x :: xs => y <- f x ;; ys <- mapM f xs ;; ret (y :: ys)
  end.

Fixpoint forM_ {A} (l : list A) (f : A -> M unit) : M unit :=
  match l with
  | [] => ret tt
  | x :: xs => f x ;;; forM_ xs f
  end.

(** ** Plugin objects and configuration *)

(** What a hook does when applied to its arguments: it returns a plain
    value, throws, or returns a promise that fulfils or rejects. *)
Inductive hook_result : Type :=
| HReturn (v : jsval)
| HThrow (e : jsval)
| HResolve (v : jsval)
| HReject (e : jsval).

Definition hook := list jsval -> hook_result.

(** The [info] / [options] argument of the capability functions. *)
Record info : Type := mkInfo {
  i_specName : option string;
  i_stackTrace : option string
}.

Definition empty_info : info := mkInfo None None.

(** [PluginConfig]; [inline] is only tested for presence. *)
Record plugin_config : Type := mkConfig {
  c_path : option string;
  c_package : option string;
  c_inline : bool;
  c_name : option string
}.

(** A plugin object as the configuration supplies it. *)
Record raw_plugin : Type := mkRaw {
  r_name : option string;
  r_skipAngularStability : bool;
  r_hooks : list (string * hook)
}.

(** A plugin object after [annotatePluginObj]. *)
Record plugin : Type := mkPlugin {
  p_name : string;
  p_config : plugin_config;
  p_skipAngularStability : bool;
  p_hooks : list (string * hook)
}.

Definition truthy_opt (o : option string) : bool := truthy (opt_str o).

(** [pluginObj[funName]]: the first own property of that name. *)
Definition lookup_hook (p : plugin) (funName : string) : option hook :=
  match find (fun kh => String.eqb (fst kh) funName) (p_hooks p) with
  | Some (_, h) => Some h
  | None => None
  end.

Definition has_hook (p : plugin) (funName : string) : bool :=
  match lookup_hook p funName with Some _ => true | None => false end.

(** [annotatePluginObj], the name assignment of lines 108-110; the
    capability functions are [addFailure], [addSuccess] and [addWarning]
    below, closing over the annotated object. *)
Definition annotate_name (obj : raw_plugin) (conf : plugin_config) (i : nat)
  : string :=
  js_to_string
    (js_or (js_or (js_or (js_or (opt_str (r_name obj)) (opt_str (c_name conf)))
                         (opt_str (c_path conf)))
                  (opt_str (c_package conf)))
           (JStr ("Plugin #" ++ nat_to_string i))).

Definition annotatePluginObj (obj : raw_plugin) (conf : plugin_config) (i : nat)
  : plugin :=
  mkPlugin (annotate_name obj conf i) conf (r_skipAngularStability obj)
           (r_hooks obj).

(** ** Capability functions *)

Definition error_obj (m : string) : jsval := JObj (Some m) None ("Error: " ++ m).

Definition reported_error : jsval :=
  error_obj "Cannot add new tests results, since they were already reported.".

(** Canonical decimal digits of [s] read after [acc]. *)
Fixpoint digits_value (s : string) (acc : N) : option N :=
  match s with
  | EmptyString => Some acc
  | String c s' =>
      let n := N.of_nat (nat_of_ascii c) in
      if andb (N.leb 48 n) (N.leb n 57)
      then digits_value s' (acc * 10 + (n - 48))%N else None
  end.

(** The value of [k] when it is an array index ([ToString(ToUint32(k))]
    is [k] and the value is below 2^32 - 1): a JavaScript object
    enumerates these keys first, in ascending order, and the other string
    keys after them, in the order they were created. *)
Definition array_index (k : string) : option N :=
  match k with
  | EmptyString => None
  | String c s' =>
      if andb (Ascii.eqb c "0"%char) (negb (String.eqb s' EmptyString)) then None
      else match digits_value k 0%N with
           | Some n => if N.ltb n 4294967295%N then Some n else None
           | None => None
           end
  end.

(** A new key [k] is enumerated before the existing key [k']. *)
Definition enumerated_before (k k' : string) : bool :=
  match array_index k, array_index k' with
  | Some n, Some n' => N.ltb n n'
  | Some _, None => true
  | None, _ => false
  end.

Definition store_has (k : string) (s : store) : bool :=
  existsb (fun kl => String.eqb k (fst kl)) s.

(** [this.assertions[specName].push(assertion)] on an existing key. *)
Fixpoint store_append (k : string) (a : assertion) (s : store) : store :=
  match s with
  | [] => []
  | (k', l) :: s' =>
      if String.eqb k k' then (k', app l [a]) :: s' else (k', l) :: store_append k a s'
  end.

(** A new key with its one-record array, at its place in the enumeration
    order. *)
Fixpoint store_insert (k : string) (a : assertion) (s : store) : store :=
  match s with
  | [] => [(k, [a])]
  | (k', l) :: s' =>
      if enumerated_before k k' then (k, [a]) :: s
      else (k', l) :: store_insert k a s'
  end.

(** [this.assertions[specName] = this.assertions[specName] || [];
     this.assertions[specName].push(assertion)], for a spec name that is
    not a property of [Object.prototype]. *)
Definition store_push (k : string) (a : assertion) (s : store) : store :=
  if store_has k s then store_append k a s else store_insert k a s.

(** The properties of [Object.prototype] that are methods: reading one of
    them from [this.assertions] gives a function. *)
Definition proto_methods : list string :=
  ["constructor"; "toString"; "toLocaleString"; "valueOf"; "hasOwnProperty";
   "isPrototypeOf"; "propertyIsEnumerable"; "__defineGetter__";
   "__defineSetter__"; "__lookupGetter__"; "__lookupSetter__"].

Definition is_proto_method (k : string) : bool :=
  existsb (String.eqb k) proto_methods.

(** Spec names that [this.assertions[specName]] reads from
    [Object.prototype]: the methods, and the accessor [__proto__], which
    gives [Object.prototype] itself. *)
Definition inherited (k : string) : bool :=
  String.eqb k "__proto__" || is_proto_method k.

(** [.push] called on a value that has no [push] method. *)
Definition push_type_error : jsval :=
  type_error "this.assertions[specName].push is not a function".

(** [info.specName || (obj.name + ' Plugin Tests')]. *)
Definition spec_name_of (obj : plugin) (info0 : option info) : string :=
  let i := match info0 with Some i => i | None => empty_info end in
  if truthy_opt (i_specName i) then js_to_string (opt_str (i_specName i))
  else p_name obj ++ " Plugin Tests".

(** [addAssertion] of lines 87-106 on the fields [assertions] and
    [resultsReported].  An inherited spec name is truthy, so [.push] is
    called on it and throws; for a method name the assignment before it
    has also created an own property holding the function, which [state]
    does not hold: [inst] below keeps it. *)
Definition addAssertion (obj : plugin) (info0 : option info) (passed0 : bool)
  (message : jsval) : M unit :=
  st <- get ;;
  if resultsReported st then throw reported_error else
  let i := match info0 with Some i => i | None => empty_info end in
  let specName := spec_name_of obj info0 in
  if inherited specName then throw push_type_error else
  let a :=
    if passed0 then mkAssertion true None None
    else mkAssertion false (Some message)
           (if truthy_opt (i_stackTrace i) then i_stackTrace i else None) in
  put (mkState (store_push specName a (assertions st)) (resultsReported st)).

Definition addFailure (obj : plugin) (message : jsval) (info0 : option info)
  : M unit := addAssertion obj info0 false message.

Definition addSuccess (obj : plugin) (options : option info) : M unit :=
  addAssertion obj options true JUndef.

Definition dq : string := String "034"%char EmptyString.
Definition tab : string := String "009"%char EmptyString.
Definition nl : string := String "010"%char EmptyString.

Definition addWarning (obj : plugin) (message : jsval) (options : option info)
  : M unit :=
  let o := match options with Some o => o | None => empty_info end in
  log ("Warning " ++
       (if truthy_opt (i_specName o) then "in " ++ js_to_string (opt_str (i_specName o))
        else "from " ++ dq ++ p_name obj ++ dq ++ " plugin") ++
       ": " ++ js_to_string message).

(** ** Reporting *)

(** [s.replace(/\n/g, '\n\t\t')] *)
Fixpoint indent_lines (s : string) : string :=
  match s with
  | EmptyString => EmptyString
  | String c s' =>
      if Ascii.eqb c "010"%char then nl ++ tab ++ tab ++ indent_lines s'
      else String c (indent_lines s')
  end.

Definition printResult (message : string) (pass : bool) : M unit :=
  log (tab ++ (if pass then "Pass: " else "Fail: ") ++ message).

Definition printPluginResults (specResults0 : list (string * list assertion))
  : M unit :=
  forM_ specResults0 (fun sr =>
    let passed1 := fold_left andb (map passed (snd sr)) true in
    printResult (fst sr) passed1 ;;;
    if passed1 then ret tt else
    forM_ (snd sr) (fun a =>
      if passed a then ret tt else
      log (tab ++ tab ++ js_to_string (match errorMsg a with Some m => m | None => JUndef end)) ;;;
      match stackTrace a with
      | Some t => if truthy_opt (Some t) then log (tab ++ tab ++ indent_lines t) else ret tt
      | None => ret tt
      end)).

Record results : Type := mkResults {
  failedCount : nat;
  specResults : list (string * list assertion)
}.

Definition count_failed (l : list assertion) : nat :=
  List.length (filter (fun a => negb (passed a)) l).

Definition getResults : M results :=
  st <- get ;;
  let r := fold_left
             (fun r sl => mkResults (failedCount r + count_failed (snd sl))
                                    (app (specResults r) [sl]))
             (assertions st) (mkResults 0 []) in
  printPluginResults (specResults r) ;;;
  st' <- get ;;
  put (mkState (assertions st') true) ;;;
  ret r.

(** ** Call isolation: [safeCallPluginFun] *)

Inductive PromiseType : Type := Q | WEBDRIVER.

(** The deferred returned by [safeCallPluginFun]: already fulfilled, or
    fulfilled in a later turn with the value the continuation computes.
    When the continuation throws, the exception rejects the promise made
    by [result.then(...)], not the deferred, which then never settles. *)
Inductive promise : Type :=
| PFulfilled (v : jsval)
| PPending (k : M jsval).

Definition failure_message (funName : string) (m : jsval) : string :=
  "Failure during " ++ funName ++ ": " ++ js_to_string m.

(** [logError] of lines 229-245; its result is the value passed to
    [deferred.fulfill]. *)
Definition logError (pluginObj : plugin) (funName : string)
  (failReturnVal : jsval) (e : jsval) : M jsval :=
  st <- get ;;
  if resultsReported st then
    (* 'Failure during ' + funName + ': ' + (e.message || e), e.stack *)
    match get_message e, get_stack e with
    | Some m, Some stk =>
        printPluginResults
          [(p_name pluginObj ++ " Runtime",
            [mkAssertion false (Some (JStr (failure_message funName (js_or m e))))
                         stk])] ;;;
        ret failReturnVal
    | _, _ => throw (type_error "Cannot read property 'message' of null or undefined")
    end
  else
    (* 'Failure during ' + funName + ': ' + e.message || e, {stackTrace: e.stack} *)
    match get_message e with
    | None => throw (type_error "Cannot read property 'message' of null or undefined")
    | Some m =>
        let msg := js_or (JStr (failure_message funName m)) e in
        match get_stack e with
        | None => throw (type_error "Cannot read property 'stack' of null or undefined")
        | Some stk =>
            addFailure pluginObj msg (Some (mkInfo None stk)) ;;;
            ret failReturnVal
        end
    end.

(** [safeCallPluginFun]; both promise conventions behave alike here, so
    [promiseType] only selects the kind of deferred. *)
Definition safeCallPluginFun (pluginObj : plugin) (funName : string)
  (args : list jsval) (promiseType : PromiseType) (failReturnVal : jsval)
  : M promise :=
  match lookup_hook pluginObj funName with
  | None =>
      v <- logError pluginObj funName failReturnVal
             (type_error "Cannot read property 'apply' of undefined") ;;
      ret (PFulfilled v)
  | Some h =>
      match h args with
      | HReturn v => ret (PFulfilled v)
      | HResolve v => ret (PPending (ret v))
      | HReject e => ret (PPending (logError pluginObj funName failReturnVal e))
      | HThrow e =>
          v <- logError pluginObj funName failReturnVal e ;;
          ret (PFulfilled v)
      end
  end.

(** Settling a deferred: [Some v] when it is fulfilled with [v], [None]
    when it stays pending for ever. *)
Definition settle (p : promise) : M (option jsval) :=
  match p with
  | PFulfilled v => ret (Some v)
  | PPending k => fun st =>
      match k st with
      | (Ok v, st', l) => (Ok (Some v), st', l)
      | (Throws _, st', l) => (Ok None, st', l)
      end
  end.

(** ** Fan-out: [pluginFunFactory] *)

(** The handler's body: [self.pluginObjs.forEach(...)] pushing a call for
    every plugin object that has the hook. *)
Fixpoint collect_calls (funName : string) (promiseType : PromiseType)
  (failReturnVal : jsval) (args : list jsval) (pluginObjs : list plugin)
  : M (list promise) :=
  match pluginObjs with
  | [] => ret []
  | p :: ps =>
      if has_hook p funName then
        pr <- safeCallPluginFun p funName args promiseType failReturnVal ;;
        rest <- collect_calls funName promiseType failReturnVal args ps ;;
        ret (pr :: rest)
      else collect_calls funName promiseType failReturnVal args ps
  end.

Definition pluginFunFactory (funName : string) (promiseType : PromiseType)
  (failReturnVal : jsval) : list plugin -> list jsval -> M (list promise) :=
  fun pluginObjs args =>
    collect_calls funName promiseType failReturnVal args pluginObjs.

Fixpoint upd {A} (l : list A) (i : nat) (x : A) : list A :=
  match l, i with
  | [], _ => []
  | _ :: l', 0 => x :: l'
  | y :: l', S i' => y :: upd l' i' x
  end.

Fixpoint all_some {A} (l : list (option A)) : option (list A) :=
  match l with
  | [] => Some []
  | None :: _ => None
  | Some x :: l' =>
      match all_some l' with Some xs => Some (x :: xs) | None => None end
  end.

(** [q.all] / [webdriver.promise.all]: each promise, when it completes,
    stores its value at its own index; [order] is the sequence in which the
    promises complete. *)
Fixpoint all_complete (ps : list promise) (order : list nat)
  (slots : list (option jsval)) : M (list (option jsval)) :=
  match order with
  | [] => ret slots
  | i :: order' =>
      match nth_error ps i with
      | Some p =>
          o <- settle p ;;
          all_complete ps order'
            (match o with Some v => upd slots i (Some v) | None => slots end)
      | None => all_complete ps order' slots
      end
  end.

(** The combined promise: [Some vs] when every promise settled, [None]
    while one is still pending. *)
Definition promise_all (ps : list promise) (order : list nat)
  : M (option (list jsval)) :=
  slots <- all_complete ps order (map (fun _ => None) ps) ;;
  ret (all_some slots).

(** The eight dispatch points of [Plugins] (lines 195-205);
    [failReturnVal] omitted reads as [undefined]. *)
Definition setup := pluginFunFactory "setup" Q JUndef.
Definition teardown := pluginFunFactory "teardown" Q JUndef.
Definition postResults := pluginFunFactory "postResults" Q JUndef.
Definition postTest := pluginFunFactory "postTest" Q JUndef.
Definition onPageLoad := pluginFunFactory "onPageLoad" WEBDRIVER JUndef.
Definition onPageStable := pluginFunFactory "onPageStable" WEBDRIVER JUndef.
Definition waitForPromise := pluginFunFactory "waitForPromise" WEBDRIVER JUndef.
Definition waitForCondition :=
  pluginFunFactory "waitForCondition" WEBDRIVER (JBool true).

(** ** Runs of the capability functions *)

(** The operations through which the store and the flag change. *)
Inductive op : Type :=
| OpAddFailure (p : plugin) (message : jsval) (i : option info)
| OpAddSuccess (p : plugin) (i : option info)
| OpAddWarning (p : plugin) (message : jsval) (i : option info)
| OpGetResults
| OpLogError (p : plugin) (funName : string) (failReturnVal : jsval) (e : jsval).

(** One operation; an exception thrown by it is caught by its caller. *)
Definition step (o : op) (st : state) : state :=
  match o with
  | OpAddFailure p m i => snd (fst (addFailure p m i st))
  | OpAddSuccess p i => snd (fst (addSuccess p i st))
  | OpAddWarning p m i => snd (fst (addWarning p m i st))
  | OpGetResults => snd (fst (getResults st))
  | OpLogError p f fv e => snd (fst (logError p f fv e st))
  end.

Definition run_ops (os : list op) (st : state) : state :=
  fold_left (fun s o => step o s) os st.

(** ** Spec-side definitions *)

(** The first value of [l] that is present and non-empty, else [d]. *)
Fixpoint first_nonempty (l : list (option string)) (d : string) : string :=
  match l with
  | [] => d
  | Some s :: l' => if String.eqb s "" then first_nonempty l' d else s
  | None :: l' => first_nonempty l' d
  end.

(** Number of records with [passed === false] over all spec names. *)
Definition total_failed (s : store) : nat :=
  List.length (filter (fun a => negb (passed a)) (List.concat (map snd s))).

(** The shape of a stored record. *)
Definition shape_ok (a : assertion) : Prop :=
  if passed a then errorMsg a = None /\ stackTrace a = None
  else errorMsg a <> None.

Definition store_ok (s : store) : Prop :=
  Forall (fun kl => Forall shape_ok (snd kl)) s.

(** The value a call's deferred settles with, read off the hook alone. *)
Definition call_value (p : plugin) (funName : string) (args : list jsval)
  (failReturnVal : jsval) : option jsval :=
  match lookup_hook p funName with
  | None => Some failReturnVal
  | Some h =>
      match h args with
      | HReturn v | HResolve v => Some v
      | HThrow e | HReject e => if nullish e then None else Some failReturnVal
      end
  end.

(** [m] returns normally, only writing log lines. *)
Definition log_only {A} (m : M A) : Prop :=
  forall st, exists a l, m st = (Ok a, st, l).

(** The results object built by the loop of [getResults]. *)
Definition results_of (s : store) : results :=
  fold_left (fun r sl => mkResults (failedCount r + count_failed (snd sl))
                                   (app (specResults r) [sl]))
            s (mkResults 0 []).

(** [pr] settles as [o] whatever the state when it completes. *)
Definition settles_to (pr : promise) (o : option jsval) : Prop :=
  forall st, fst (fst (settle pr st)) = Ok o.

(** The slots after the completions of [order], read off the values. *)
Fixpoint fill (outs : list (option jsval)) (order : list nat)
  (slots : list (option jsval)) : list (option jsval) :=
  match order with
  | [] => slots
  | i :: order' =>
      fill outs order'
        (match nth_error outs i with
         | Some (Some v) => upd slots i (Some v)
         | _ => slots
         end)
  end.

(** ** Loading: the [Plugins] constructor *)

(** A [config.plugins] entry: its configuration and the object its
    [inline] field holds.  Objects are given with an identity, so that
    one object reached by two entries (a cached [require], a shared inline
    object) is seen as the same object. *)
Abbreviation entry := (plugin_config * option (nat * raw_plugin))%type.

Definition config_error : jsval :=
  error_obj ("Plugin configuration did not contain a valid path or " ++
             "inline definition.").

(** [skipAngularStability()]: [reduce] with [||] from [false]. *)
Definition skipAngularStability (pluginObjs : list plugin) : bool :=
  fold_left (fun skip p => p_skipAngularStability p || skip) pluginObjs false.

Section Load.

(** [ConfigParser.resolveFilePatterns] and [require], external
    collaborators of the constructor. *)
Variable resolveFilePatterns : string -> bool -> string -> list string.
Variable require : string -> res (nat * raw_plugin).
Variable configDir : string.

(** The local [path] of lines 51-60. *)
Definition plugin_path (conf : plugin_config) : res (option string) :=
  match c_path conf with
  | Some p =>
      if truthy_opt (Some p) then
        match resolveFilePatterns p true configDir with
        | r :: _ =>
            if truthy_opt (Some r) then Ok (Some r)
            else Throws (error_obj ("Invalid path to plugin: " ++ p))
        | [] => Throws (error_obj ("Invalid path to plugin: " ++ p))
        end
      else Ok (c_package conf)
  | None => Ok (c_package conf)
  end.

(** The local [pluginObj] of lines 62-71. *)
Definition plugin_object (e : entry) : res (nat * raw_plugin) :=
  match plugin_path (fst e) with
  | Throws x => Throws x
  | Ok path =>
      match path with
      | Some s => if truthy_opt (Some s) then require s
                  else match snd e with Some o => Ok o | None => Throws config_error end
      | None => match snd e with Some o => Ok o | None => Throws config_error end
      end
  end.

(** [annotatePluginObj] on an object that may already have been
    annotated: it then has the name given the first time. *)
Definition annotate_loaded (objs : list (nat * plugin)) (o : nat * raw_plugin)
  (conf : plugin_config) (i : nat) : plugin :=
  let cur :=
    match find (fun jq => Nat.eqb (fst jq) (fst o)) objs with
    | Some (_, q) => mkRaw (Some (p_name q)) (r_skipAngularStability (snd o))
                           (r_hooks (snd o))
    | None => snd o
    end in
  annotatePluginObj cur conf i.

(** The [forEach] of the constructor.  [objs] is [this.pluginObjs] with the
    identity of each object; annotating an object changes every entry that
    holds it. *)
Fixpoint load_from (es : list entry) (i : nat) (objs : list (nat * plugin))
  : res (list (nat * plugin)) * list string :=
  match es with
  | [] => (Ok objs, [])
  | e :: es' =>
      match plugin_object e with
      | Throws x => (Throws x, [])
      | Ok o =>
          let p := annotate_loaded objs o (fst e) i in
          let objs' := app (map (fun jq => if Nat.eqb (fst jq) (fst o)
                                           then (fst jq, p) else jq) objs)
                           [(fst o, p)] in
          match load_from es' (S i) objs' with
          | (r, l) => (r, ("Plugin " ++ dq ++ p_name p ++ dq ++ " loaded.") :: l)
          end
      end
  end.

(** [new Plugins(config)]: the loaded plugin objects, or the exception the
    constructor throws. *)
Definition Plugins_new (plugins : option (list entry))
  : res (list plugin) * list string :=
  match load_from (match plugins with Some ps => ps | None => [] end) 0 [] with
  | (Ok objs, l) => (Ok (map snd objs), l)
  | (Throws x, l) => (Throws x, l)
  end.

End Load.

(** ** Definitions for the further properties *)

(** Values [js_or] chains of optional strings can produce. *)
Definition strish (v : jsval) : Prop :=
  match v with JUndef | JStr _ => True | _ => False end.

(** Objects annotated pairwise with their configurations, from index [i]. *)
Fixpoint annotate_all (cs : list plugin_config) (os : list raw_plugin) (i : nat)
  : list plugin :=
  match cs, os with
  | c :: cs', o :: os' => annotatePluginObj o c i :: annotate_all cs' os' (S i)
  | _, _ => []
  end.

(** [this.assertions[k] || []] *)
Definition store_lookup (s : store) (k : string) : list assertion :=
  match find (fun kl => String.eqb (fst kl) k) s with
  | Some (_, l) => l
  | None => []
  end.

(** Whether an operation is a [getResults] call. *)
Definition is_getResults (o : op) : bool :=
  match o with OpGetResults => true | _ => false end.

(** Whether a string contains a space. *)
Fixpoint has_space (s : string) : bool :=
  match s with
  | EmptyString => false
  | String c s' => Ascii.eqb c " "%char || has_space s'
  end.

(** ** The whole instance *)

(** A [Plugins] instance: its fields as [state] holds them, and the own
    properties of [this.assertions] that hold a function, created by
    [addAssertion] for a method name of [Object.prototype]. *)
Record inst : Type := mkInst {
  base : state;
  fn_keys : list string
}.

Definition inst_initial : inst := mkInst initial_state [].

(** [addAssertion] on the whole instance: for a method name, the
    assignment [this.assertions[specName] = this.assertions[specName] || []]
    runs before [.push] throws and leaves an own property holding the
    inherited function. *)
Definition inst_addAssertion (obj : plugin) (info0 : option info) (passed0 : bool)
  (message : jsval) (x : inst) : res unit * inst * list string :=
  let k := spec_name_of obj info0 in
  match addAssertion obj info0 passed0 message (base x) with
  | (r, st, l) =>
      (r, mkInst st (if negb (resultsReported (base x)) && is_proto_method k
                        && negb (existsb (String.eqb k) (fn_keys x))
                     then app (fn_keys x) [k] else fn_keys x), l)
  end.

Definition inst_addFailure (obj : plugin) (message : jsval) (info0 : option info)
  (x : inst) : res unit * inst * list string :=
  inst_addAssertion obj info0 false message x.

Definition inst_addSuccess (obj : plugin) (options : option info) (x : inst)
  : res unit * inst * list string :=
  inst_addAssertion obj options true JUndef x.

(** [.filter] called on a function. *)
Definition filter_type_error : jsval :=
  type_error "this.assertions[specName].filter is not a function".

(** [getResults] on the whole instance.  The [for ... in] loop reaches
    every own property; at a function entry [.filter] throws, before
    anything is printed and before the flag is set.  The entries met
    before it only fill the local [results], so where the function entry
    stands in the enumeration order makes no difference. *)
Definition inst_getResults (x : inst) : res results * inst * list string :=
  match fn_keys x with
  | [] => match getResults (base x) with (r, st, l) => (r, mkInst st [], l) end
  | _ :: _ => (Throws filter_type_error, x, [])
  end.

(** One operation on the whole instance.  [addWarning] does not touch the
    store, and [logError] files under [name + ' Plugin Tests'], which has a
    space and so is no property of [Object.prototype]. *)
Definition inst_step (o : op) (x : inst) : inst :=
  match o with
  | OpAddFailure p m i => snd (fst (inst_addFailure p m i x))
  | OpAddSuccess p i => snd (fst (inst_addSuccess p i x))
  | OpGetResults => snd (fst (inst_getResults x))
  | OpAddWarning _ _ _ | OpLogError _ _ _ _ => mkInst (step o (base x)) (fn_keys x)
  end.

Definition inst_run_ops (os : list op) (x : inst) : inst :=
  fold_left (fun y o => inst_step o y) os x.

(** ** Concrete plugin objects *)

(** Collaborators of the constructor for concrete runs. *)
Definition rfp0 : string -> bool -> string -> list string := fun _ _ _ => [].
Definition req0 : string -> res (nat * raw_plugin) := fun _ => Throws JUndef.
Definition raw0 : raw_plugin := mkRaw None true [].
Definition conf0 : plugin_config := mkConfig None None true None.

(** [{specName: 'constructor'}]. *)
Definition ctor_info : info := mkInfo (Some "constructor") None.


Definition pA : plugin :=
  mkPlugin "A" (mkConfig None None true None) false
    [("setup", fun _ => HThrow (error_obj "boom"))].

Definition pB : plugin :=
  mkPlugin "B" (mkConfig None (Some "b") false None) false
    [("teardown", fun _ => HReturn JUndef)].

Definition pC : plugin :=
  mkPlugin "C" (mkConfig None (Some "c") false None) false
    [("setup", fun _ => HResolve (JStr "c"))].

Definition pRejectUndef : plugin :=
  mkPlugin "R" (mkConfig None None true None) false
    [("setup", fun _ => HReject JUndef)].

Definition pThrowNull : plugin :=
  mkPlugin "N" (mkConfig None None true None) false
    [("setup", fun _ => HThrow JNull)].

Definition message_type_error : jsval :=
  type_error "Cannot read property 'message' of null or undefined".

Definition pThrowString : plugin :=
  mkPlugin "S" (mkConfig None None true None) false
    [("setup", fun _ => HThrow (JStr "boom"))].

Definition pThrowUndef : plugin :=
  mkPlugin "T" (mkConfig None None true None) false
    [("setup", fun _ => HThrow JUndef)].

Definition pRejectUndef2 : plugin :=
  mkPlugin "T" (mkConfig None None true None) false
    [("setup", fun _ => HReject JUndef)].

Definition pWaitError : plugin :=
  mkPlugin "W" (mkConfig None None true None) false
    [("waitForCondition", fun _ => HThrow (error_obj "crash"))].

Definition pWaitRejectUndef : plugin :=
  mkPlugin "W" (mkConfig None None true None) false
    [("waitForCondition", fun _ => HReject JUndef)].

Definition pWaitThrowUndef : plugin :=
  mkPlugin "W" (mkConfig None None true None) false
    [("waitForCondition", fun _ => HThrow JUndef)].

(** ** Monad lemmas *)

Lemma log_only_ret {A} (a : A) : log_only (ret a).
Proof. intros st. now exists a, []. Qed.

Lemma log_only_log s : log_only (log s).
Proof. intros st. now exists tt, [s]. Qed.

Lemma log_only_bind {A B} (m : M A) (f : A -> M B) :
  log_only m -> (forall a, log_only (f a)) -> log_only (bind m f).
Proof.
  intros Hm Hf st. destruct (Hm st) as (a & l & E).
  destruct (Hf a st) as (b & l' & E').
  exists b, (app l l'). unfold bind. now rewrite E, E'.
Qed.

Lemma log_only_forM_ {A} (l : list A) (f : A -> M unit) :
  (forall x, log_only (f x)) -> log_only (forM_ l f).
Proof.
  intros Hf. induction l as [|x l IH]; simpl.
  - apply log_only_ret.
  - apply log_only_bind; auto.
Qed.

Create HintDb logonly.
#[export] Hint Resolve log_only_ret log_only_log log_only_bind log_only_forM_ : logonly.

Lemma printPluginResults_log_only sr : log_only (printPluginResults sr).
Proof.
  unfold printPluginResults. apply log_only_forM_. intros [d l].
  apply log_only_bind; [unfold printResult; auto with logonly|].
  intros _. destruct (fold_left andb _ true); auto with logonly.
  apply log_only_forM_. intros a. destruct (passed a); auto with logonly.
  apply log_only_bind; auto with logonly. intros _.
  destruct (stackTrace a) as [t|]; [destruct (truthy_opt (Some t))|]; auto with logonly.
Qed.

Lemma bind_Ok {A B} (m : M A) (f : A -> M B) st a st1 l1 :
  m st = (Ok a, st1, l1) ->
  bind m f st = match f a st1 with (r, st2, l2) => (r, st2, app l1 l2) end.
Proof. intros E. unfold bind. now rewrite E. Qed.

Lemma getResults_spec st :
  exists l, getResults st =
    (Ok (results_of (assertions st)), mkState (assertions st) true, l).
Proof.
  destruct (printPluginResults_log_only (specResults (results_of (assertions st))) st)
    as (u & l & E).
  exists (app l []). unfold getResults.
  rewrite (bind_Ok _ _ st st st [] eq_refl).
  unfold results_of in E. rewrite (bind_Ok _ _ _ _ _ _ E).
  reflexivity.
Qed.

Lemma results_of_failed_aux s n l :
  failedCount (fold_left (fun r sl => mkResults (failedCount r + count_failed (snd sl))
                                      (app (specResults r) [sl])) s (mkResults n l))
  = n + total_failed s.
Proof.
  revert n l. induction s as [|[k a] s IH]; intros n l; simpl.
  - unfold total_failed. simpl. lia.
  - rewrite IH. unfold total_failed, count_failed. simpl.
    rewrite filter_app, length_app. lia.
Qed.

Lemma results_of_failed s : failedCount (results_of s) = total_failed s.
Proof. unfold results_of. now rewrite results_of_failed_aux. Qed.

(** ** State lemmas *)

Lemma addAssertion_reported p i b m st :
  resultsReported st = true ->
  addAssertion p i b m st = (Throws reported_error, st, []).
Proof. intros H. unfold addAssertion, bind, get. simpl. now rewrite H. Qed.

Lemma addWarning_eval p m i st :
  exists line, addWarning p m i st = (Ok tt, st, [line]).
Proof. unfold addWarning. eexists. reflexivity. Qed.

Lemma logError_reported_state p f fv e st :
  resultsReported st = true -> snd (fst (logError p f fv e st)) = st.
Proof.
  intros H. unfold logError, bind at 1, get. simpl. rewrite H.
  destruct (get_message e) as [m|]; [|reflexivity].
  destruct (get_stack e) as [stk|]; [|reflexivity].
  match goal with |- context [printPluginResults ?l] =>
    destruct (printPluginResults_log_only l st) as (u & l' & E) end.
  rewrite (bind_Ok _ _ _ _ _ _ E). reflexivity.
Qed.

Lemma step_keeps_reported o st :
  resultsReported st = true -> resultsReported (step o st) = true.
Proof.
  intros H. destruct o; unfold step.
  - unfold addFailure. now rewrite addAssertion_reported.
  - unfold addSuccess. now rewrite addAssertion_reported.
  - destruct (addWarning_eval p message i st) as (line & E). now rewrite E.
  - destruct (getResults_spec st) as (l & E). now rewrite E.
  - now rewrite logError_reported_state.
Qed.

Lemma run_ops_keeps_reported os st :
  resultsReported st = true -> resultsReported (run_ops os st) = true.
Proof.
  revert st. induction os as [|o os IH]; intros st H; simpl; auto.
  apply IH. now apply step_keeps_reported.
Qed.

Lemma store_append_ok k a s :
  store_ok s -> shape_ok a -> store_ok (store_append k a s).
Proof.
  intros Hs Ha. induction Hs as [|[k' l] s Hl Hs IH]; simpl; [constructor|].
  destruct (String.eqb k k').
  - constructor; [|exact Hs]. simpl. apply Forall_app. split; [exact Hl|].
    constructor; [exact Ha|constructor].
  - constructor; [exact Hl|exact IH].
Qed.

Lemma store_insert_ok k a s :
  store_ok s -> shape_ok a -> store_ok (store_insert k a s).
Proof.
  intros Hs Ha. induction Hs as [|[k' l] s Hl Hs IH]; simpl.
  - constructor; [simpl; constructor; [exact Ha|constructor]|constructor].
  - destruct (enumerated_before k k').
    + constructor; [simpl; constructor; [exact Ha|constructor]|].
      constructor; [exact Hl|exact Hs].
    + constructor; [exact Hl|exact IH].
Qed.

Lemma store_push_ok k a s :
  store_ok s -> shape_ok a -> store_ok (store_push k a s).
Proof.
  intros Hs Ha. unfold store_push. destruct (store_has k s);
  [apply store_append_ok|apply store_insert_ok]; assumption.
Qed.

Lemma addAssertion_ok p i b m st :
  store_ok (assertions st) ->
  store_ok (assertions (snd (fst (addAssertion p i b m st)))).
Proof.
  intros H. unfold addAssertion, bind, get, put, throw. simpl.
  destruct (resultsReported st); simpl; [exact H|].
  destruct (inherited (spec_name_of p i)); simpl; [exact H|].
  apply store_push_ok; [exact H|].
  destruct b; unfold shape_ok; simpl; [split; reflexivity|discriminate].
Qed.

Lemma logError_ok p f fv e st :
  store_ok (assertions st) ->
  store_ok (assertions (snd (fst (logError p f fv e st)))).
Proof.
  intros H. destruct (resultsReported st) eqn:R.
  - now rewrite logError_reported_state.
  - unfold logError, bind at 1, get. simpl. rewrite R.
    destruct (get_message e) as [m|]; [|exact H].
    destruct (get_stack e) as [stk|]; [|exact H].
    unfold bind. pose proof (addAssertion_ok p (Some (mkInfo None stk)) false
      (js_or (JStr (failure_message f m)) e) st H) as K.
    unfold addFailure.
    destruct (addAssertion _ _ _ _ st) as [[[u|x] st1] l1]; exact K.
Qed.

Lemma step_ok o st :
  store_ok (assertions st) -> store_ok (assertions (step o st)).
Proof.
  intros H. destruct o; unfold step.
  - now apply addAssertion_ok.
  - now apply addAssertion_ok.
  - destruct (addWarning_eval p message i st) as (line & E). now rewrite E.
  - destruct (getResults_spec st) as (l & E). now rewrite E.
  - now apply logError_ok.
Qed.

Lemma run_ops_ok os st :
  store_ok (assertions st) -> store_ok (assertions (run_ops os st)).
Proof.
  revert st. induction os as [|o os IH]; intros st H; simpl; auto.
  apply IH. now apply step_ok.
Qed.

Lemma js_or_opt o v :
  js_or (opt_str o) v = if truthy_opt o then opt_str o else v.
Proof. reflexivity. Qed.

Lemma truthy_opt_first o l d :
  first_nonempty (o :: l) d = if truthy_opt o then js_to_string (opt_str o)
                              else first_nonempty l d.
Proof.
  destruct o as [s|]; simpl; [|reflexivity].
  unfold truthy_opt. simpl. now destruct (String.eqb s "").
Qed.

(** ** Spec names and the whole instance *)

Lemma has_space_app_r s t : has_space t = true -> has_space (s ++ t) = true.
Proof.
  intros H. induction s as [|c s IH]; [exact H|]. cbn. rewrite IH. apply orb_true_r.
Qed.

Lemma inherited_no_space k : inherited k = true -> has_space k = false.
Proof.
  unfold inherited, is_proto_method, proto_methods. cbn [existsb]. intros H.
  repeat (apply orb_true_iff in H; destruct H as [H|H]);
  try (apply String.eqb_eq in H; subst k; reflexivity); discriminate.
Qed.

(** [name + ' Plugin Tests'] is never read from [Object.prototype]. *)
Lemma plugin_tests_not_inherited s : inherited (s ++ " Plugin Tests") = false.
Proof.
  destruct (inherited (s ++ " Plugin Tests")) eqn:E; [|reflexivity].
  apply inherited_no_space in E. rewrite has_space_app_r in E; [discriminate|reflexivity].
Qed.

Lemma addAssertion_open_state p i b m st :
  resultsReported st = false -> inherited (spec_name_of p i) = false ->
  addAssertion p i b m st =
  (Ok tt, mkState (store_push (spec_name_of p i)
                     (if b then mkAssertion true None None
                      else mkAssertion false (Some m)
                             (let inf := match i with Some i => i | None => empty_info end in
                              if truthy_opt (i_stackTrace inf) then i_stackTrace inf else None))
                     (assertions st)) false, []).
Proof.
  intros H Hi. unfold addAssertion, bind, get, put. cbn. rewrite H, Hi. reflexivity.
Qed.

Lemma addAssertion_inherited p i b m st :
  resultsReported st = false -> inherited (spec_name_of p i) = true ->
  addAssertion p i b m st = (Throws push_type_error, st, []).
Proof.
  intros H Hi. unfold addAssertion, bind, get, put. cbn. rewrite H, Hi. reflexivity.
Qed.

Lemma inst_step_ok o x :
  store_ok (assertions (base x)) -> store_ok (assertions (base (inst_step o x))).
Proof.
  intros H. destruct o; cbn [inst_step base].
  - unfold inst_addFailure, inst_addAssertion.
    pose proof (addAssertion_ok p i false message (base x) H) as K.
    destruct (addAssertion _ _ _ _ (base x)) as [[r st] l]. exact K.
  - unfold inst_addSuccess, inst_addAssertion.
    pose proof (addAssertion_ok p i true JUndef (base x) H) as K.
    destruct (addAssertion _ _ _ _ (base x)) as [[r st] l]. exact K.
  - now apply step_ok.
  - unfold inst_getResults. destruct (fn_keys x); [|exact H].
    pose proof (step_ok OpGetResults (base x) H) as K. unfold step in K.
    destruct (getResults (base x)) as [[r st] l]. exact K.
  - now apply step_ok.
Qed.

Lemma inst_run_ops_ok os x :
  store_ok (assertions (base x)) -> store_ok (assertions (base (inst_run_ops os x))).
Proof.
  revert x. induction os as [|o os IH]; intros x H; [exact H|].
  apply IH. now apply inst_step_ok.
Qed.

Lemma inst_addAssertion_base p i b m x :
  base (snd (fst (inst_addAssertion p i b m x))) =
  snd (fst (addAssertion p i b m (base x))) /\
  fst (fst (inst_addAssertion p i b m x)) = fst (fst (addAssertion p i b m (base x))).
Proof.
  unfold inst_addAssertion. destruct (addAssertion p i b m (base x)) as [[r st] l].
  split; reflexivity.
Qed.

(** ** Claims *)

(** C7: for a plugin object without a name of its own, the name assigned
    by [annotatePluginObj] is the first non-empty one of the configured
    name, the configured path, the configured package and
    ["Plugin #<index>"]. *)
Theorem annotate_name_fallback (obj : raw_plugin) (conf : plugin_config) (i : nat)
  (Hnoname : truthy_opt (r_name obj) = false) :
  p_name (annotatePluginObj obj conf i) =
  first_nonempty [c_name conf; c_path conf; c_package conf]
                 ("Plugin #" ++ nat_to_string i).
Proof.
  unfold annotatePluginObj, annotate_name. cbn [p_name].
  assert (Hr : opt_str (r_name obj) = JUndef \/ opt_str (r_name obj) = JStr "").
  { unfold truthy_opt in Hnoname. destruct (r_name obj) as [s|]; [|now left].
    right. simpl in Hnoname. destruct (String.eqb s "") eqn:Es; [|discriminate].
    apply String.eqb_eq in Es. now subst s. }
  destruct Hr as [Hr|Hr]; rewrite Hr;
  destruct (c_name conf) as [a|], (c_path conf) as [b|], (c_package conf) as [c|];
  cbn [first_nonempty opt_str]; unfold js_or, truthy;
  repeat (match goal with |- context [String.eqb ?x ""] =>
            destruct (String.eqb x "") eqn:? end; cbn [negb js_to_string]);
  first [reflexivity | discriminate | congruence].
Qed.

(** C2: once [getResults] has run, whatever happens afterwards,
    [addFailure] and [addSuccess] throw, while [addWarning] returns
    normally, leaves the state as it is and writes one log line. *)
Theorem capabilities_after_getResults (st : state) (os : list op)
  (p : plugin) (m : jsval) (i : option info) :
  let st' := run_ops (OpGetResults :: os) st in
  fst (fst (addFailure p m i st')) = Throws reported_error /\
  fst (fst (addSuccess p i st')) = Throws reported_error /\
  exists line, addWarning p m i st' = (Ok tt, st', [line]).
Proof.
  intros st'.
  assert (H : resultsReported st' = true).
  { unfold st'. change (run_ops (OpGetResults :: os) st)
      with (run_ops os (step OpGetResults st)).
    apply run_ops_keeps_reported. unfold step.
    destruct (getResults_spec st) as (l & E). now rewrite E. }
  split; [|split].
  - unfold addFailure. now rewrite addAssertion_reported.
  - unfold addSuccess. now rewrite addAssertion_reported.
  - apply addWarning_eval.
Qed.

(** C6: [getResults] reports as [failedCount] the number of records with
    [passed === false] over all spec names, and a second [getResults] on
    the same store reports the same count. *)
Theorem getResults_failedCount (st : state) :
  match getResults st with
  | (Ok r, st1, _) =>
      failedCount r = total_failed (assertions st) /\
      match getResults st1 with
      | (Ok r', _, _) => failedCount r' = failedCount r
      | _ => False
      end
  | _ => False
  end.
Proof.
  destruct (getResults_spec st) as (l & E). rewrite E.
  destruct (getResults_spec (mkState (assertions st) true)) as (l' & E').
  rewrite E'. cbn [assertions]. split; [apply results_of_failed|reflexivity].
Qed.

(** C9: [addWarning] leaves the store and the [resultsReported] flag as
    they are, so a warning changes nothing that [getResults] reports. *)
Theorem addWarning_frame (st : state) (p : plugin) (m : jsval) (i : option info) :
  assertions (step (OpAddWarning p m i) st) = assertions st /\
  resultsReported (step (OpAddWarning p m i) st) = resultsReported st /\
  fst (fst (getResults (step (OpAddWarning p m i) st))) =
  Ok (results_of (assertions st)).
Proof.
  unfold step. destruct (addWarning_eval p m i st) as (line & E). rewrite E.
  cbn [fst snd]. split; [reflexivity|split; [reflexivity|]].
  destruct (getResults_spec st) as (l & E'). now rewrite E'.
Qed.

(** C10: every record in the store has the shape of its kind, whatever
    capability and [getResults] calls a run makes: a record [addSuccess]
    adds is exactly [{passed: true}], and one [addFailure] adds has
    [passed: false], an [errorMsg] and a [stackTrace] only when
    [info.stackTrace] was supplied (non-empty).  A call that throws (after
    the report, or for a spec name read from [Object.prototype]) adds no
    record. *)
Theorem assertion_record_shape (os : list op) (x : inst) (p : plugin)
  (m : jsval) (i : option info) :
  store_ok (assertions (base (inst_run_ops os inst_initial))) /\
  (fst (fst (inst_addSuccess p i x)) = Ok tt ->
     assertions (base (snd (fst (inst_addSuccess p i x)))) =
       store_push (spec_name_of p i) (mkAssertion true None None) (assertions (base x))) /\
  (fst (fst (inst_addFailure p m i x)) = Ok tt ->
     exists a, assertions (base (snd (fst (inst_addFailure p m i x)))) =
                 store_push (spec_name_of p i) a (assertions (base x)) /\
       passed a = false /\ errorMsg a = Some m /\
       (forall t, stackTrace a = Some t ->
          exists inf, i = Some inf /\ i_stackTrace inf = Some t /\ t <> "")) /\
  (fst (fst (inst_addSuccess p i x)) <> Ok tt ->
     assertions (base (snd (fst (inst_addSuccess p i x)))) = assertions (base x)) /\
  (fst (fst (inst_addFailure p m i x)) <> Ok tt ->
     assertions (base (snd (fst (inst_addFailure p m i x)))) = assertions (base x)).
Proof.
  unfold inst_addSuccess, inst_addFailure.
  destruct (inst_addAssertion_base p i true JUndef x) as [Bs Rs].
  destruct (inst_addAssertion_base p i false m x) as [Bf Rf].
  rewrite Bs, Rs, Bf, Rf.
  split; [apply inst_run_ops_ok; constructor|].
  destruct (resultsReported (base x)) eqn:R.
  - rewrite !addAssertion_reported by exact R. cbn.
    split; [discriminate|split; [discriminate|split; reflexivity]].
  - destruct (inherited (spec_name_of p i)) eqn:Hi.
    + rewrite !addAssertion_inherited by assumption. cbn.
      split; [discriminate|split; [discriminate|split; reflexivity]].
    + rewrite !addAssertion_open_state by assumption. cbn [fst snd assertions].
      split; [reflexivity|]. split; [|split; intros C; exfalso; now apply C].
      intros _. eexists. split; [reflexivity|]. cbn.
      split; [reflexivity|split; [reflexivity|]].
      intros t Ht. destruct i as [inf|]; [|discriminate].
      destruct (truthy_opt (i_stackTrace inf)) eqn:E; [|discriminate].
      exists inf. split; [reflexivity|split; [exact Ht|]].
      rewrite Ht in E. unfold truthy_opt in E. cbn in E.
      intros ->. discriminate.
Qed.

Lemma assertion_record_shape_witness :
  fst (fst (inst_addSuccess pA None inst_initial)) = Ok tt /\
  assertions (base (snd (fst (inst_addSuccess pA None inst_initial)))) =
    store_push "A Plugin Tests" (mkAssertion true None None) [].
Proof.
  split; [reflexivity|].
  destruct (assertion_record_shape [] inst_initial pA (JStr "x") None) as (_ & H & _).
  exact (H eq_refl).
Defined.

Lemma annotate_name_fallback_witness :
  truthy_opt (r_name (mkRaw None false [])) = false /\
  p_name (annotatePluginObj (mkRaw None false []) (mkConfig None (Some "pkg") false None) 3)
  = "pkg".
Proof.
  split; [reflexivity|].
  rewrite (annotate_name_fallback (mkRaw None false [])
             (mkConfig None (Some "pkg") false None) 3 eq_refl).
  reflexivity.
Defined.

(** ** Fan-out lemmas *)

Lemma collect_calls_filter funName pt fv args ps :
  collect_calls funName pt fv args ps =
  mapM (fun p => safeCallPluginFun p funName args pt fv)
       (filter (fun p => has_hook p funName) ps).
Proof.
  induction ps as [|p ps IH]; simpl; [reflexivity|].
  destruct (has_hook p funName); simpl; now rewrite IH.
Qed.

Lemma addAssertion_open p i b m st :
  resultsReported st = false -> inherited (spec_name_of p i) = false ->
  exists st', addAssertion p i b m st = (Ok tt, st', []).
Proof.
  intros H Hi. rewrite addAssertion_open_state by assumption.
  eexists. reflexivity.
Qed.

Lemma logError_value p f fv e st :
  nullish e = false -> fst (fst (logError p f fv e st)) = Ok fv.
Proof.
  intros Hn.
  assert (Hm : exists m, get_message e = Some m)
    by (destruct e; try discriminate; eexists; reflexivity).
  assert (Hs : exists s, get_stack e = Some s)
    by (destruct e; try discriminate; eexists; reflexivity).
  destruct Hm as (m & Hm), Hs as (stk & Hs).
  unfold logError. rewrite (bind_Ok _ _ st st st [] eq_refl).
  destruct (resultsReported st) eqn:R; rewrite Hm.
  - rewrite Hs.
    match goal with |- context [printPluginResults ?l] =>
      destruct (printPluginResults_log_only l st) as (u & l' & E) end.
    rewrite (bind_Ok _ _ _ _ _ _ E). reflexivity.
  - rewrite Hs. unfold addFailure.
    match goal with |- context [addAssertion ?a ?b ?c ?d] =>
      destruct (addAssertion_open a b c d st R (plugin_tests_not_inherited _)) as (st' & E) end.
    rewrite (bind_Ok _ _ _ _ _ _ E). reflexivity.
Qed.

Lemma logError_nullish p f fv e st :
  nullish e = true -> exists x, fst (fst (logError p f fv e st)) = Throws x.
Proof.
  intros Hn. destruct e; try discriminate;
  unfold logError; rewrite (bind_Ok _ _ st st st [] eq_refl);
  destruct (resultsReported st); cbn; eexists; reflexivity.
Qed.

Lemma safeCall_settles p f args pt fv st pr st' l :
  safeCallPluginFun p f args pt fv st = (Ok pr, st', l) ->
  settles_to pr (call_value p f args fv).
Proof.
  unfold safeCallPluginFun, call_value. intros E st0.
  destruct (lookup_hook p f) as [h|].
  - destruct (h args) as [v|e|v|e].
    + injection E as <- _ _. reflexivity.
    + destruct (nullish e) eqn:Hn.
      * destruct (logError_nullish p f fv e st Hn) as (x & Hx).
        unfold bind in E. destruct (logError p f fv e st) as [[[v|x'] s1] l1].
        -- discriminate Hx.
        -- discriminate E.
      * pose proof (logError_value p f fv e st Hn) as Hv.
        unfold bind in E. destruct (logError p f fv e st) as [[[v|x'] s1] l1].
        -- cbn in Hv. injection Hv as ->. injection E as <- _ _. reflexivity.
        -- discriminate Hv.
    + injection E as <- _ _. reflexivity.
    + injection E as <- _ _. unfold settle.
      destruct (nullish e) eqn:Hn.
      * destruct (logError_nullish p f fv e st0 Hn) as (x & Hx).
        destruct (logError p f fv e st0) as [[[v|x'] s1] l1]; [discriminate Hx|reflexivity].
      * pose proof (logError_value p f fv e st0 Hn) as Hv.
        destruct (logError p f fv e st0) as [[[v|x'] s1] l1]; [|discriminate Hv].
        cbn in Hv. now injection Hv as ->.
  - pose proof (logError_value p f fv
      (type_error "Cannot read property 'apply' of undefined") st eq_refl) as Hv.
    unfold bind in E.
    destruct (logError p f fv _ st) as [[[v|x'] s1] l1]; [|discriminate Hv].
    cbn in Hv. injection Hv as ->. injection E as <- _ _. reflexivity.
Qed.

Lemma mapM_settles funName args pt fv (xs : list plugin) st proms st' l :
  mapM (fun p => safeCallPluginFun p funName args pt fv) xs st = (Ok proms, st', l) ->
  Forall2 settles_to proms (map (fun p => call_value p funName args fv) xs).
Proof.
  revert st proms st' l. induction xs as [|x xs IH]; intros st proms st' l E.
  - cbn in E. injection E as <- _ _. constructor.
  - cbn [mapM] in E. unfold bind at 1 in E.
    destruct (safeCallPluginFun x funName args pt fv st) as [[[pr|e] s1] l1] eqn:E1;
      [|discriminate E].
    unfold bind at 1 in E.
    destruct (mapM _ xs s1) as [[[prs|e] s2] l2] eqn:E2; [|discriminate E].
    cbn in E. injection E as <- _ _.
    constructor; [exact (safeCall_settles _ _ _ _ _ _ _ _ _ E1)|].
    exact (IH _ _ _ _ E2).
Qed.

Lemma Forall2_nth_error_l {A B} (R : A -> B -> Prop) l1 l2 i :
  Forall2 R l1 l2 ->
  match nth_error l1 i with
  | Some a => exists b, nth_error l2 i = Some b /\ R a b
  | None => nth_error l2 i = None
  end.
Proof.
  intros H. revert i. induction H as [|a b l1 l2 Hab H IH]; intros [|i]; cbn; eauto.
  apply IH.
Qed.

Lemma all_complete_fill ps outs order slots st :
  Forall2 settles_to ps outs ->
  fst (fst (all_complete ps order slots st)) = Ok (fill outs order slots).
Proof.
  intros HF. revert slots st. induction order as [|i order IH]; intros slots st.
  - reflexivity.
  - cbn [all_complete fill].
    pose proof (Forall2_nth_error_l _ _ _ i HF) as Hi.
    destruct (nth_error ps i) as [p|].
    + destruct Hi as (o & Ho & Hs). rewrite Ho.
      pose proof (Hs st) as Hst. unfold bind.
      destruct (settle p st) as [[[o'|x] s1] l1]; [|discriminate Hst].
      cbn in Hst. injection Hst as ->.
      specialize (IH (match o with Some v => upd slots i (Some v) | None => slots end) s1).
      destruct (all_complete ps order _ s1) as [[r s2] l2].
      cbn in IH |- *. rewrite IH. destruct o; reflexivity.
    + rewrite Hi. apply IH.
Qed.

Lemma length_upd {A} (l : list A) i x : List.length (upd l i x) = List.length l.
Proof.
  revert i. induction l as [|y l IH]; intros [|i]; cbn; auto.
Qed.

Lemma nth_error_upd {A} (l : list A) i j x :
  nth_error (upd l j x) i =
  if Nat.eqb i j then (if Nat.ltb i (List.length l) then Some x else None)
  else nth_error l i.
Proof.
  revert i j. induction l as [|y l IH]; intros [|i] [|j]; cbn; auto.
  all: try (destruct (Nat.eqb i j); reflexivity).
Qed.

Lemma nth_error_fill outs order slots i :
  List.length slots = List.length outs ->
  nth_error (fill outs order slots) i =
  if existsb (Nat.eqb i) order then
    match nth_error outs i with
    | Some (Some v) => Some (Some v)
    | _ => nth_error slots i
    end
  else nth_error slots i.
Proof.
  revert slots. induction order as [|j order IH]; intros slots Hlen; cbn [fill existsb].
  - reflexivity.
  - assert (Hlen' : List.length (match nth_error outs j with
                                 | Some (Some v) => upd slots j (Some v)
                                 | _ => slots end) = List.length outs).
    { destruct (nth_error outs j) as [[v|]|]; auto. now rewrite length_upd. }
    rewrite (IH _ Hlen').
    destruct (Nat.eqb i j) eqn:Eij.
    + apply Nat.eqb_eq in Eij. subst j. cbn [orb].
      destruct (existsb (Nat.eqb i) order);
      destruct (nth_error outs i) as [[v|]|] eqn:Eo; auto.
      rewrite nth_error_upd, Nat.eqb_refl.
      assert (Hlt : i < List.length slots)
        by (rewrite Hlen; apply nth_error_Some; congruence).
      apply Nat.ltb_lt in Hlt. now rewrite Hlt.
    + cbn [orb].
      assert (Hk : nth_error (match nth_error outs j with
                              | Some (Some v) => upd slots j (Some v)
                              | _ => slots end) i = nth_error slots i).
      { destruct (nth_error outs j) as [[v|]|]; auto. now rewrite nth_error_upd, Eij. }
      rewrite Hk. reflexivity.
Qed.

Lemma fill_all outs order :
  (forall i, i < List.length outs -> In i order) ->
  fill outs order (map (fun _ => None) outs) = outs.
Proof.
  intros Hin. apply nth_error_ext. intros i.
  rewrite nth_error_fill by (now rewrite length_map).
  destruct (Nat.ltb i (List.length outs)) eqn:Hlt.
  - apply Nat.ltb_lt in Hlt.
    assert (Hex : existsb (Nat.eqb i) order = true).
    { apply existsb_exists. exists i. split; [now apply Hin|apply Nat.eqb_refl]. }
    rewrite Hex. rewrite nth_error_map.
    destruct (nth_error outs i) as [[v|]|]; reflexivity.
  - apply Nat.ltb_ge in Hlt.
    assert (Hn : nth_error outs i = None) by (now apply nth_error_None).
    rewrite Hn, nth_error_map, Hn. destruct (existsb _ _); reflexivity.
Qed.

(** C5: the handler made by [pluginFunFactory] for hook [funName] calls
    [safeCallPluginFun] exactly on the plugin objects that have the hook,
    in registration order, and for every order in which the individual
    promises complete, the combined promise yields the per-plugin results
    in registration order. *)
Theorem dispatch_registration_order (funName : string) (pt : PromiseType)
  (fv : jsval) (ps : list plugin) (args : list jsval) (st : state)
  (proms : list promise) (st1 : state) (l1 : list string)
  (order : list nat) (st2 : state)
  (Hrun : pluginFunFactory funName pt fv ps args st = (Ok proms, st1, l1))
  (Horder : Permutation order (seq 0 (List.length proms))) :
  pluginFunFactory funName pt fv ps args =
    mapM (fun p => safeCallPluginFun p funName args pt fv)
         (filter (fun p => has_hook p funName) ps) /\
  fst (fst (promise_all proms order st2)) =
    Ok (all_some (map (fun p => call_value p funName args fv)
                      (filter (fun p => has_hook p funName) ps))).
Proof.
  assert (Heq : pluginFunFactory funName pt fv ps args =
                mapM (fun p => safeCallPluginFun p funName args pt fv)
                     (filter (fun p => has_hook p funName) ps))
    by apply collect_calls_filter.
  split; [exact Heq|].
  rewrite Heq in Hrun. apply mapM_settles in Hrun.
  set (outs := map _ _) in Hrun |- *.
  unfold promise_all, bind.
  pose proof (all_complete_fill proms outs order (map (fun _ => None) proms) st2 Hrun)
    as Hc.
  destruct (all_complete proms order _ st2) as [[r s3] l3].
  cbn in Hc |- *. rewrite Hc.
  assert (Hl : List.length proms = List.length outs) by (eapply Forall2_length; eauto).
  assert (Hm : map (fun _ : promise => @None jsval) proms = map (fun _ => None) outs).
  { revert Hl. generalize outs as os. clear.
    induction proms as [|a proms IH]; intros [|o os] Hl;
    cbn in *; try discriminate; auto. f_equal. apply IH. lia. }
  rewrite Hm, fill_all; [reflexivity|].
  intros i Hi. apply (Permutation_in i (Permutation_sym Horder)).
  apply in_seq. lia.
Qed.

Lemma dispatch_registration_order_witness :
  match setup [pA; pB; pC] [] initial_state with
  | (Ok proms, st1, l1) =>
      Permutation [1; 0] (seq 0 (List.length proms)) /\
      fst (fst (promise_all proms [1; 0] initial_state)) =
        Ok (Some [JUndef; JStr "c"])
  | _ => False
  end.
Proof.
  destruct (setup [pA; pB; pC] [] initial_state) as [[[proms|x] st1] l1] eqn:E.
  - assert (Hp : Permutation [1; 0] (seq 0 (List.length proms))).
    { unfold setup, pluginFunFactory in E. vm_compute in E.
      injection E as <- _ _. apply perm_swap. }
    split; [exact Hp|].
    destruct (dispatch_registration_order "setup" Q JUndef [pA; pB; pC] []
                initial_state proms st1 l1 [1; 0] initial_state E Hp) as [_ H].
    rewrite H. reflexivity.
  - vm_compute in E. discriminate E.
Defined.

(** C1 (failing input): a hook whose promise rejects with [undefined]
    leaves the promise of [safeCallPluginFun] pending for ever, and a hook
    that throws [null] makes [safeCallPluginFun] itself throw; neither
    records an assertion. *)
Theorem safeCall_nullish_cause :
  match safeCallPluginFun pRejectUndef "setup" [] Q JUndef initial_state with
  | (Ok pr, st1, _) =>
      settle pr st1 = (Ok None, initial_state, [])
  | _ => False
  end /\
  safeCallPluginFun pThrowNull "setup" [] Q JUndef initial_state =
    (Throws message_type_error, initial_state, []).
Proof. split; vm_compute; reflexivity. Qed.

(** C3 (failing input): a hook throwing the string ["boom"] before
    results are reported records the message
    ["Failure during setup: undefined"], not
    ["Failure during setup: boom"]; the post-report branch of [logError]
    renders the same cause as ["Failure during setup: boom"]. *)
Theorem failure_message_precedence :
  match setup [pThrowString] [] initial_state with
  | (Ok [PFulfilled JUndef], st1, _) =>
      assertions st1 =
        [("S Plugin Tests",
          [mkAssertion false (Some (JStr "Failure during setup: undefined")) None])]
  | _ => False
  end /\
  logError pThrowString "setup" JUndef (JStr "boom") (mkState [] true) =
    (Ok JUndef, mkState [] true,
     [tab ++ "Fail: S Runtime"; tab ++ tab ++ "Failure during setup: boom"]).
Proof. split; vm_compute; reflexivity. Qed.

(** C4 (failing input): with the cause [undefined], throwing makes the
    dispatch throw a [TypeError] at once, while rejecting leaves the
    combined promise pending for ever; no assertion is recorded in
    either case. *)
Theorem throw_vs_reject_undefined :
  setup [pThrowUndef] [] initial_state =
    (Throws message_type_error, initial_state, []) /\
  match setup [pRejectUndef2] [] initial_state with
  | (Ok proms, st1, _) =>
      promise_all proms [0] st1 = (Ok None, initial_state, [])
  | _ => False
  end.
Proof. split; vm_compute; reflexivity. Qed.

(** C8 (failing input): [waitForCondition] is built with the fail value
    [true] and a hook throwing an [Error] contributes [true]; a hook whose
    promise rejects with [undefined] leaves the combined promise pending
    for ever, and a hook throwing [undefined] makes the dispatch throw. *)
Theorem waitForCondition_fail_value :
  waitForCondition = pluginFunFactory "waitForCondition" WEBDRIVER (JBool true) /\
  match waitForCondition [pWaitError] [] initial_state with
  | (Ok proms, st1, _) => fst (fst (promise_all proms [0] st1)) = Ok (Some [JBool true])
  | _ => False
  end /\
  match waitForCondition [pWaitRejectUndef] [] initial_state with
  | (Ok proms, st1, _) => fst (fst (promise_all proms [0] st1)) = Ok None
  | _ => False
  end /\
  fst (fst (waitForCondition [pWaitThrowUndef] [] initial_state)) =
    Throws message_type_error.
Proof. split; [reflexivity|]. split; [|split]; vm_compute; reflexivity. Qed.

(** * Further properties of the code *)

Lemma annotate_name_named n sk h c i :
  truthy_opt (Some n) = true -> annotate_name (mkRaw (Some n) sk h) c i = n.
Proof.
  intros H. unfold truthy_opt in H. cbn in H.
  destruct (String.eqb n "") eqn:E; [discriminate|].
  unfold annotate_name, js_or. cbn [opt_str r_name truthy]. rewrite E.
  repeat (simpl; rewrite E). reflexivity.
Qed.

Lemma js_or_truthy_r a b : truthy b = true -> truthy (js_or a b) = true.
Proof. intros H. unfold js_or. destruct (truthy a) eqn:E; auto. Qed.


Lemma js_or_strish a b : strish a -> strish b -> strish (js_or a b).
Proof. intros Ha Hb. unfold js_or. now destruct (truthy a). Qed.

Lemma opt_str_strish o : strish (opt_str o).
Proof. now destruct o. Qed.

Lemma annotate_name_truthy raw c i :
  truthy_opt (Some (annotate_name raw c i)) = true.
Proof.
  unfold annotate_name.
  match goal with |- context [js_to_string (js_or ?a ?b)] =>
    assert (Hs : strish (js_or a b))
      by (repeat apply js_or_strish; first [apply opt_str_strish | exact I]);
    assert (Ht : truthy (js_or a b) = true) by (apply js_or_truthy_r; reflexivity);
    destruct (js_or a b) end; try contradiction; [discriminate|exact Ht].
Qed.


Section LoadFacts.
Variable rfp : string -> bool -> string -> list string.
Variable req : string -> res (nat * raw_plugin).
Variable dir : string.

Lemma plugin_object_no_source conf :
  truthy_opt (c_path conf) = false -> truthy_opt (c_package conf) = false ->
  plugin_object rfp req dir (conf, None) = Throws config_error.
Proof.
  intros Hp Hk. unfold plugin_object, plugin_path. cbn [fst snd].
  destruct (c_path conf) as [p|]; [rewrite Hp|];
  destruct (c_package conf) as [k|]; try rewrite Hk; reflexivity.
Qed.

Lemma plugin_object_bad_path conf inl p :
  c_path conf = Some p -> truthy_opt (Some p) = true -> rfp p true dir = [] ->
  plugin_object rfp req dir (conf, inl) =
    Throws (error_obj ("Invalid path to plugin: " ++ p)).
Proof.
  intros Hc Hp Hr. unfold plugin_object, plugin_path. cbn [fst snd].
  now rewrite Hc, Hp, Hr.
Qed.

Lemma load_from_fst_cons e es i objs :
  fst (load_from rfp req dir (e :: es) i objs) =
  match plugin_object rfp req dir e with
  | Throws x => Throws x
  | Ok o =>
      let p := annotate_loaded objs o (fst e) i in
      fst (load_from rfp req dir es (S i)
             (app (map (fun jq => if Nat.eqb (fst jq) (fst o) then (fst jq, p) else jq) objs)
                  [(fst o, p)]))
  end.
Proof.
  cbn [load_from]. destruct (plugin_object rfp req dir e) as [o|x]; [|reflexivity].
  cbv zeta. destruct (load_from rfp req dir es _ _); reflexivity.
Qed.

Lemma load_from_throws e x rest :
  plugin_object rfp req dir e = Throws x ->
  forall pre i objs, exists y, fst (load_from rfp req dir (app pre (e :: rest)) i objs) = Throws y.
Proof.
  intros He pre. induction pre as [|e' pre IH]; intros i objs.
  - exists x. cbn [app]. rewrite load_from_fst_cons, He. reflexivity.
  - cbn [app]. rewrite load_from_fst_cons.
    destruct (plugin_object rfp req dir e') as [o|y]; [apply IH|now exists y].
Qed.

Lemma Plugins_new_fst es :
  fst (Plugins_new rfp req dir (Some es)) =
  match fst (load_from rfp req dir es 0 []) with
  | Ok objs => Ok (map snd objs)
  | Throws x => Throws x
  end.
Proof.
  unfold Plugins_new. destruct (load_from rfp req dir es 0 []) as [[o|x] l]; reflexivity.
Qed.

Lemma find_absent id (acc : list (nat * plugin)) :
  ~ In id (map fst acc) -> find (fun jq => Nat.eqb (fst jq) id) acc = None.
Proof.
  induction acc as [|[j q] acc IH]; intros H; cbn; [reflexivity|].
  destruct (Nat.eqb j id) eqn:E.
  - apply Nat.eqb_eq in E. subst. exfalso. apply H. now left.
  - apply IH. intros Hin. apply H. now right.
Qed.

Lemma map_update_absent id p (acc : list (nat * plugin)) :
  ~ In id (map fst acc) ->
  map (fun jq => if Nat.eqb (fst jq) id then (fst jq, p) else jq) acc = acc.
Proof.
  induction acc as [|[j q] acc IH]; intros H; cbn; [reflexivity|].
  destruct (Nat.eqb j id) eqn:E.
  - apply Nat.eqb_eq in E. subst. exfalso. apply H. now left.
  - f_equal. apply IH. intros Hin. apply H. now right.
Qed.

Lemma load_from_distinct es os :
  Forall2 (fun e o => plugin_object rfp req dir e = Ok o) es os ->
  NoDup (map fst os) ->
  forall i acc, (forall id, In id (map fst os) -> ~ In id (map fst acc)) ->
  fst (load_from rfp req dir es i acc) =
    Ok (app acc (combine (map fst os) (annotate_all (map fst es) (map snd os) i))).
Proof.
  intros HF. induction HF as [|e o es os He HF IH]; intros Hnd i acc Hdis.
  - cbn. now rewrite app_nil_r.
  - rewrite load_from_fst_cons, He. cbv zeta.
    cbn [map] in Hnd. inversion Hnd as [|? ? Hnin Hnd']; subst.
    assert (Ho : ~ In (fst o) (map fst acc)) by (apply Hdis; now left).
    unfold annotate_loaded. rewrite find_absent by exact Ho.
    rewrite map_update_absent by exact Ho.
    rewrite IH; [|exact Hnd'|].
    + cbn [map combine annotate_all]. rewrite <- app_assoc. reflexivity.
    + intros id Hid. rewrite map_app, in_app_iff. intros [Hacc|Hnew].
      * apply (Hdis id); [now right|exact Hacc].
      * cbn in Hnew. destruct Hnew as [<-|[]]. contradiction.
Qed.

Lemma length_annotate_all cs os i :
  List.length cs = List.length os -> List.length (annotate_all cs os i) = List.length os.
Proof.
  revert os i. induction cs as [|c cs IH]; intros [|o os] i H; cbn in *; try lia.
  f_equal. apply IH. lia.
Qed.

Lemma map_snd_combine {A B} (xs : list A) (ys : list B) :
  List.length xs = List.length ys -> map snd (combine xs ys) = ys.
Proof.
  revert ys. induction xs as [|x xs IH]; intros [|y ys] H; cbn in *; try lia; auto.
  f_equal. apply IH. lia.
Qed.

End LoadFacts.

Lemma skip_fold ps b :
  fold_left (fun skip p => p_skipAngularStability p || skip) ps b =
  existsb p_skipAngularStability ps || b.
Proof.
  revert b. induction ps as [|p ps IH]; intros b; cbn; [reflexivity|].
  rewrite IH. destruct (p_skipAngularStability p), (existsb _ ps), b; reflexivity.
Qed.

(** [skipAngularStability] is true exactly when some loaded object has a
    truthy [skipAngularStability]. *)
Theorem skipAngularStability_any ps :
  skipAngularStability ps = existsb p_skipAngularStability ps.
Proof. unfold skipAngularStability. rewrite skip_fold. apply orb_false_r. Qed.

(** An entry with neither a truthy [path] nor a truthy [package] and no
    [inline] object makes the constructor throw, wherever it stands in the
    list; as the first entry it throws the configuration error. *)
Theorem Plugins_new_no_source rfp req dir (pre rest : list entry) conf
  (Hp : truthy_opt (c_path conf) = false) (Hk : truthy_opt (c_package conf) = false) :
  (exists y, fst (Plugins_new rfp req dir (Some (app pre ((conf, None) :: rest)))) = Throws y) /\
  fst (Plugins_new rfp req dir (Some ((conf, None) :: rest))) = Throws config_error.
Proof.
  pose proof (plugin_object_no_source rfp req dir conf Hp Hk) as He.
  split.
  - destruct (load_from_throws rfp req dir _ _ rest He pre 0 []) as (y & Hy).
    exists y. rewrite Plugins_new_fst. cbn [fst]. rewrite Hy. reflexivity.
  - rewrite Plugins_new_fst. destruct (load_from_throws rfp req dir _ _ rest He [] 0 [])
      as (y & Hy).
    cbn [app] in Hy. rewrite load_from_fst_cons, He. reflexivity.
Qed.

(** An entry whose truthy [path] resolves to no file makes the constructor
    throw, wherever it stands; as the first entry it throws
    ['Invalid path to plugin: ' + path], even if it has an [inline] object. *)
Theorem Plugins_new_bad_path rfp req dir (pre rest : list entry) conf inl p
  (Hc : c_path conf = Some p) (Hp : truthy_opt (Some p) = true)
  (Hr : rfp p true dir = []) :
  (exists y, fst (Plugins_new rfp req dir (Some (app pre ((conf, inl) :: rest)))) = Throws y) /\
  fst (Plugins_new rfp req dir (Some ((conf, inl) :: rest))) =
    Throws (error_obj ("Invalid path to plugin: " ++ p)).
Proof.
  pose proof (plugin_object_bad_path rfp req dir conf inl p Hc Hp Hr) as He.
  split.
  - destruct (load_from_throws rfp req dir _ _ rest He pre 0 []) as (y & Hy).
    exists y. rewrite Plugins_new_fst, Hy. reflexivity.
  - rewrite Plugins_new_fst, load_from_fst_cons, He. reflexivity.
Qed.

(** When every entry yields an object and the objects are distinct, the
    constructor loads them in order, the [i]-th annotated with the [i]-th
    configuration and index [i]. *)
Theorem Plugins_new_distinct rfp req dir es os
  (HF : Forall2 (fun e o => plugin_object rfp req dir e = Ok o) es os)
  (Hnd : NoDup (map fst os)) :
  fst (Plugins_new rfp req dir (Some es)) =
    Ok (annotate_all (map fst es) (map snd os) 0).
Proof.
  rewrite Plugins_new_fst.
  rewrite (load_from_distinct rfp req dir es os HF Hnd 0 []) by (intros; auto).
  cbn [app]. rewrite map_snd_combine; [reflexivity|].
  pose proof (Forall2_length HF) as Hl.
  rewrite length_annotate_all by (rewrite !length_map; exact Hl).
  now rewrite !length_map.
Qed.

(** One object reached by two entries is pushed twice as the same
    object: it keeps the name the first entry gave it and takes the
    configuration of the second. *)
Theorem Plugins_new_shared_object rfp req dir e1 e2 id raw
  (H1 : plugin_object rfp req dir e1 = Ok (id, raw))
  (H2 : plugin_object rfp req dir e2 = Ok (id, raw)) :
  exists q, fst (Plugins_new rfp req dir (Some [e1; e2])) = Ok [q; q] /\
    p_name q = annotate_name raw (fst e1) 0 /\ p_config q = fst e2.
Proof.
  rewrite Plugins_new_fst, load_from_fst_cons, H1. cbv zeta.
  rewrite load_from_fst_cons, H2. cbv zeta. cbn [fst snd].
  unfold annotate_loaded at 1. cbn [find map fst snd app]. rewrite Nat.eqb_refl.
  cbn [load_from find fst snd app].
  unfold annotate_loaded. cbn [find fst snd]. rewrite Nat.eqb_refl. cbn [fst].
  eexists. split; [reflexivity|]. split; [|reflexivity].
  cbn [p_name annotatePluginObj snd].
  apply annotate_name_named. apply annotate_name_truthy.
Qed.



Lemma store_lookup_cons k l s k' :
  store_lookup ((k, l) :: s) k' = if String.eqb k k' then l else store_lookup s k'.
Proof. unfold store_lookup. cbn. now destruct (String.eqb k k'). Qed.

Lemma store_has_lookup k s : store_has k s = false -> store_lookup s k = [].
Proof.
  induction s as [|[j l] s IH]; intros H; [reflexivity|].
  unfold store_has in H; cbn [existsb fst] in H; fold (store_has k s) in H. apply orb_false_iff in H. destruct H as [H1 H2].
  rewrite store_lookup_cons, String.eqb_sym, H1. now apply IH.
Qed.

Lemma store_append_lookup k a s k' :
  store_has k s = true ->
  store_lookup (store_append k a s) k' =
  if String.eqb k' k then app (store_lookup s k') [a] else store_lookup s k'.
Proof.
  induction s as [|[j l] s IH]; intros H; [discriminate|].
  unfold store_has in H; cbn [existsb fst] in H; fold (store_has k s) in H. cbn [store_append].
  destruct (String.eqb k j) eqn:Ekj.
  - apply String.eqb_eq in Ekj. subst j. rewrite !store_lookup_cons.
    rewrite (String.eqb_sym k' k). now destruct (String.eqb k k').
  - cbn [orb] in H. rewrite !store_lookup_cons.
    destruct (String.eqb j k') eqn:Ejk.
    + apply String.eqb_eq in Ejk. subst k'. rewrite String.eqb_sym, Ekj. reflexivity.
    + exact (IH H).
Qed.

Lemma store_insert_lookup k a s k' :
  store_has k s = false ->
  store_lookup (store_insert k a s) k' =
  if String.eqb k' k then [a] else store_lookup s k'.
Proof.
  induction s as [|[j l] s IH]; intros H.
  - cbn. rewrite store_lookup_cons, (String.eqb_sym k' k).
    now destruct (String.eqb k k').
  - cbn [store_has existsb fst] in H. apply orb_false_iff in H. destruct H as [H1 H2].
    cbn [store_insert]. destruct (enumerated_before k j).
    + rewrite store_lookup_cons, (String.eqb_sym k' k). now destruct (String.eqb k k').
    + rewrite !store_lookup_cons, (IH H2).
      destruct (String.eqb j k') eqn:Ejk; [|reflexivity].
      apply String.eqb_eq in Ejk. subst k'. rewrite String.eqb_sym, H1. reflexivity.
Qed.

Lemma store_push_lookup k a s k' :
  store_lookup (store_push k a s) k' =
  if String.eqb k' k then app (store_lookup s k') [a] else store_lookup s k'.
Proof.
  unfold store_push. destruct (store_has k s) eqn:H.
  - now apply store_append_lookup.
  - rewrite store_insert_lookup by exact H.
    destruct (String.eqb k' k) eqn:E; [|reflexivity].
    apply String.eqb_eq in E. subst k'. now rewrite store_has_lookup.
Qed.

Lemma total_failed_cons k l s :
  total_failed ((k, l) :: s) = count_failed l + total_failed s.
Proof. unfold total_failed, count_failed. cbn. now rewrite filter_app, length_app. Qed.

Lemma total_failed_push k a s :
  total_failed (store_push k a s) = total_failed s + (if passed a then 0 else 1).
Proof.
  unfold store_push. destruct (store_has k s) eqn:H.
  - induction s as [|[j l] s IH]; [discriminate|].
    unfold store_has in H; cbn [existsb fst] in H; fold (store_has k s) in H. cbn [store_append].
    destruct (String.eqb k j) eqn:E.
    + rewrite !total_failed_cons. unfold count_failed.
      rewrite filter_app, length_app. cbn. destruct (passed a); cbn; lia.
    + cbn [orb] in H. rewrite !total_failed_cons, (IH H). lia.
  - clear H. induction s as [|[j l] s IH]; cbn [store_insert].
    + rewrite total_failed_cons. unfold count_failed, total_failed. cbn.
      destruct (passed a); reflexivity.
    + destruct (enumerated_before k j).
      * rewrite !total_failed_cons. unfold count_failed at 1. cbn.
        destruct (passed a); cbn; lia.
      * rewrite !total_failed_cons, IH. lia.
Qed.

(** Before the results are reported, [addSuccess] with a spec name that is
    not read from [Object.prototype] returns normally, appends one passing
    record to the list of its spec name and leaves the other lists alone. *)
Theorem addSuccess_appends p i x (Hopen : resultsReported (base x) = false)
  (Hname : inherited (spec_name_of p i) = false) :
  fst (fst (inst_addSuccess p i x)) = Ok tt /\
  forall k, store_lookup (assertions (base (snd (fst (inst_addSuccess p i x))))) k =
    if String.eqb k (spec_name_of p i)
    then app (store_lookup (assertions (base x)) k) [mkAssertion true None None]
    else store_lookup (assertions (base x)) k.
Proof.
  unfold inst_addSuccess. destruct (inst_addAssertion_base p i true JUndef x) as [B R].
  rewrite B, R, addAssertion_open_state by assumption.
  split; [reflexivity|]. intros k. apply store_push_lookup.
Qed.

(** Before reporting, with a spec name not read from [Object.prototype],
    [addFailure] raises the failed count of the assertions by one and
    [addSuccess] leaves it unchanged. *)
Theorem failure_count_steps p m i x (Hopen : resultsReported (base x) = false)
  (Hname : inherited (spec_name_of p i) = false) :
  total_failed (assertions (base (inst_step (OpAddFailure p m i) x))) =
    S (total_failed (assertions (base x))) /\
  total_failed (assertions (base (inst_step (OpAddSuccess p i) x))) =
    total_failed (assertions (base x)).
Proof.
  cbn [inst_step]. unfold inst_addFailure, inst_addSuccess.
  destruct (inst_addAssertion_base p i false m x) as [Bf _].
  destruct (inst_addAssertion_base p i true JUndef x) as [Bs _].
  rewrite Bf, Bs, !addAssertion_open_state by assumption.
  cbn [fst snd assertions]. rewrite !total_failed_push. cbn. lia.
Qed.

Lemma results_of_specs_aux s n l :
  specResults (fold_left (fun r sl => mkResults (failedCount r + count_failed (snd sl))
                                        (app (specResults r) [sl])) s (mkResults n l))
  = app l s.
Proof.
  revert n l. induction s as [|sl s IH]; intros n l; cbn.
  - now rewrite app_nil_r.
  - rewrite IH. now rewrite <- app_assoc.
Qed.

(** [getResults] returns the failed count of the assertions and every
    spec name with its records, in the order of the store, and sets the
    reported flag without changing the assertions. *)
Theorem getResults_report st :
  exists l, getResults st =
    (Ok (mkResults (total_failed (assertions st)) (assertions st)),
     mkState (assertions st) true, l).
Proof.
  destruct (getResults_spec st) as (l & E). exists l. rewrite E.
  do 3 f_equal. destruct (results_of (assertions st)) as [n sr] eqn:Er.
  f_equal.
  - rewrite <- results_of_failed, Er. reflexivity.
  - unfold results_of in Er. pose proof (results_of_specs_aux (assertions st) 0 []) as Hs.
    rewrite Er in Hs. exact Hs.
Qed.

(** Before reporting, [logError] on an error with readable [message] and
    [stack] records one failed assertion under [name + ' Plugin Tests'],
    with the message ['Failure during ' + funName + ': ' + e.message] (the
    [|| e] never applies) and the stack when truthy; it writes no log and
    returns the failure value. *)
Theorem logError_open_record p f fv e st m stk
  (Hopen : resultsReported st = false)
  (Hm : get_message e = Some m) (Hs : get_stack e = Some stk) :
  logError p f fv e st =
    (Ok fv,
     mkState (store_push (p_name p ++ " Plugin Tests")
                (mkAssertion false (Some (JStr (failure_message f m)))
                   (if truthy_opt stk then stk else None))
                (assertions st)) false,
     []).
Proof.
  unfold logError. rewrite (bind_Ok _ _ st st st [] eq_refl).
  rewrite Hopen, Hm, Hs. unfold addFailure.
  rewrite (bind_Ok _ _ _ _ _ _
    (addAssertion_open_state p (Some (mkInfo None stk)) false
       (js_or (JStr (failure_message f m)) e) st Hopen
       (plugin_tests_not_inherited (p_name p)))).
  reflexivity.
Qed.

(** After reporting, [logError] on an error with readable [message] and
    [stack] leaves the state alone, returns the failure value and prints a
    [Fail] line for [name + ' Runtime'], the failure message and, when
    truthy, the indented stack. *)
Theorem logError_reported_log p f fv e st m stk
  (Hrep : resultsReported st = true)
  (Hm : get_message e = Some m) (Hs : get_stack e = Some stk) :
  logError p f fv e st =
    (Ok fv, st,
     app [tab ++ "Fail: " ++ p_name p ++ " Runtime";
          tab ++ tab ++ failure_message f (js_or m e)]
         (match stk with
          | Some t => if truthy_opt (Some t) then [tab ++ tab ++ indent_lines t] else []
          | None => []
          end)).
Proof.
  unfold logError. rewrite (bind_Ok _ _ st st st [] eq_refl).
  rewrite Hrep, Hm, Hs.
  unfold printPluginResults, forM_, printResult, bind, log, ret.
  cbn [fold_left map passed andb snd fst stackTrace errorMsg].
  destruct stk as [t|]; [destruct (truthy_opt (Some t)) eqn:T|]; try rewrite T;
  cbn [app]; try reflexivity.
Qed.

Lemma addAssertion_flag p i b m st :
  resultsReported (snd (fst (addAssertion p i b m st))) = resultsReported st.
Proof.
  destruct (resultsReported st) eqn:R.
  - now rewrite addAssertion_reported.
  - destruct (inherited (spec_name_of p i)) eqn:Hi.
    + now rewrite addAssertion_inherited.
    + now rewrite addAssertion_open_state.
Qed.

Lemma step_flag o st :
  o <> OpGetResults -> resultsReported (step o st) = resultsReported st.
Proof.
  intros Ho. destruct o; unfold step.
  - apply addAssertion_flag.
  - apply addAssertion_flag.
  - destruct (addWarning_eval p message i st) as (line & E). now rewrite E.
  - now contradiction Ho.
  - destruct (resultsReported st) eqn:R; [now rewrite logError_reported_state|].
    unfold logError. rewrite (bind_Ok _ _ st st st [] eq_refl). rewrite R.
    destruct (get_message e) as [m|]; [|exact R].
    destruct (get_stack e) as [stk|]; [|exact R].
    unfold addFailure.
    rewrite (bind_Ok _ _ _ _ _ _
      (addAssertion_open_state p (Some (mkInfo None stk)) false
         (js_or (JStr (failure_message funName m)) e) st R
         (plugin_tests_not_inherited (p_name p)))).
    reflexivity.
Qed.

Lemma inst_step_flag o x :
  resultsReported (base (inst_step o x)) =
  resultsReported (base x) ||
  (is_getResults o && match fn_keys x with [] => true | _ :: _ => false end).
Proof.
  destruct o; cbn [inst_step base is_getResults andb]; rewrite ?orb_false_r.
  - unfold inst_addFailure. destruct (inst_addAssertion_base p i false message x) as [B _].
    rewrite B. apply addAssertion_flag.
  - unfold inst_addSuccess. destruct (inst_addAssertion_base p i true JUndef x) as [B _].
    rewrite B. apply addAssertion_flag.
  - now apply step_flag.
  - unfold inst_getResults. destruct (fn_keys x); cbn [base snd fst].
    + destruct (getResults_spec (base x)) as (l & E). rewrite E. cbn.
      now rewrite orb_true_r.
    + now rewrite orb_false_r.
  - now apply step_flag.
Qed.

(** Only [getResults] sets the reported flag, and it sets it only when it
    returns, that is when the store holds no function entry; no operation
    clears it. *)
Theorem reported_flag o x :
  resultsReported (base (inst_step o x)) =
  resultsReported (base x) ||
  (is_getResults o && match fn_keys x with [] => true | _ :: _ => false end).
Proof. apply inst_step_flag. Qed.

Lemma inst_step_fn_keys o x : fn_keys x <> [] -> fn_keys (inst_step o x) <> [].
Proof.
  intros H. destruct o; cbn [inst_step].
  - unfold inst_addFailure, inst_addAssertion.
    destruct (addAssertion _ _ _ _ (base x)) as [[r st] l]. cbn [fst snd fn_keys].
    destruct (_ && _); [|exact H]. destruct (fn_keys x); [contradiction|discriminate].
  - unfold inst_addSuccess, inst_addAssertion.
    destruct (addAssertion _ _ _ _ (base x)) as [[r st] l]. cbn [fst snd fn_keys].
    destruct (_ && _); [|exact H]. destruct (fn_keys x); [contradiction|discriminate].
  - exact H.
  - unfold inst_getResults. destruct (fn_keys x) eqn:E; [contradiction|].
    cbn. rewrite E. discriminate.
  - exact H.
Qed.


(** Once the store holds a function entry, every later [getResults]
    throws a [TypeError] before reporting, so the reported flag never
    changes again, whatever the run does afterwards. *)
Theorem function_entry_blocks_report os x (Hfn : fn_keys x <> []) :
  resultsReported (base (inst_run_ops os x)) = resultsReported (base x) /\
  fst (fst (inst_getResults (inst_run_ops os x))) = Throws filter_type_error.
Proof.
  revert x Hfn. induction os as [|o os IH]; intros x Hfn.
  - cbn. split; [reflexivity|]. unfold inst_getResults.
    destruct (fn_keys x); [contradiction|reflexivity].
  - cbn [inst_run_ops fold_left]. fold (inst_run_ops os (inst_step o x)).
    destruct (IH (inst_step o x) (inst_step_fn_keys o x Hfn)) as [H1 H2].
    split; [|exact H2]. rewrite H1, inst_step_flag.
    destruct (fn_keys x); [contradiction|]. now rewrite andb_false_r, orb_false_r.
Qed.

(** A dispatch where no object has the hook calls nothing, changes no
    state, and the combined promise is fulfilled with the empty list. *)
Theorem dispatch_no_hook funName pt fv ps args st order
  (Hnone : Forall (fun p => has_hook p funName = false) ps) :
  pluginFunFactory funName pt fv ps args st = (Ok [], st, []) /\
  promise_all [] order st = (Ok (Some []), st, []).
Proof.
  split.
  - unfold pluginFunFactory. induction Hnone as [|p ps Hp _ IH]; [reflexivity|].
    cbn [collect_calls]. now rewrite Hp.
  - unfold promise_all. induction order as [|i order IH]; [reflexivity|].
    unfold bind in *. cbn [all_complete map]. destruct i; exact IH.
Qed.

Lemma fold_andb_passed l b :
  fold_left andb (map passed l) b = b && forallb passed l.
Proof.
  revert b. induction l as [|a l IH]; intros b; cbn.
  - now rewrite andb_true_r.
  - rewrite IH. now rewrite andb_assoc.
Qed.

(** When every record of every spec passed, the report is one
    [Pass: <spec>] line per spec, in order, and nothing else. *)
Theorem report_all_pass srs st
  (Hpass : Forall (fun sr => forallb passed (snd sr) = true) srs) :
  printPluginResults srs st =
    (Ok tt, st, map (fun sr => tab ++ "Pass: " ++ fst sr) srs).
Proof.
  unfold printPluginResults.
  induction Hpass as [|[k l] srs Hk _ IH]; [reflexivity|].
  cbn [forM_]. cbn [snd] in Hk.
  match goal with |- bind ?m ?cont st = _ =>
    assert (E : m st = (Ok tt, st, [tab ++ "Pass: " ++ k])) end.
  { cbn beta. rewrite fold_andb_passed. cbn [fst snd andb]. rewrite Hk. reflexivity. }
  rewrite (bind_Ok _ _ _ _ _ _ E), IH. reflexivity.
Qed.

Lemma uint_to_string_inj d1 d2 : uint_to_string d1 = uint_to_string d2 -> d1 = d2.
Proof.
  revert d2. induction d1; destruct d2; cbn; intros H; try discriminate;
  try reflexivity; injection H as H; f_equal; now apply IHd1.
Qed.

Lemma nat_to_string_inj i j : nat_to_string i = nat_to_string j -> i = j.
Proof.
  unfold nat_to_string. intros H. apply uint_to_string_inj in H.
  now apply DecimalNat.Unsigned.to_uint_inj.
Qed.

Lemma annotate_name_unnamed o c i
  (Hr : truthy_opt (r_name o) = false) (Hn : truthy_opt (c_name c) = false)
  (Hp : truthy_opt (c_path c) = false) (Hk : truthy_opt (c_package c) = false) :
  annotate_name o c i = "Plugin #" ++ nat_to_string i.
Proof.
  unfold truthy_opt in *. unfold annotate_name, js_or.
  rewrite Hr. cbv beta iota. rewrite Hn. cbv beta iota. rewrite Hp.
  cbv beta iota. rewrite Hk. reflexivity.
Qed.

(** Objects that get the fallback name ['Plugin #' + i] at different
    indices get different names. *)
Theorem fallback_names_distinct o1 c1 i o2 c2 j
  (Hr1 : truthy_opt (r_name o1) = false) (Hn1 : truthy_opt (c_name c1) = false)
  (Hp1 : truthy_opt (c_path c1) = false) (Hk1 : truthy_opt (c_package c1) = false)
  (Hr2 : truthy_opt (r_name o2) = false) (Hn2 : truthy_opt (c_name c2) = false)
  (Hp2 : truthy_opt (c_path c2) = false) (Hk2 : truthy_opt (c_package c2) = false)
  (Hij : i <> j) :
  p_name (annotatePluginObj o1 c1 i) <> p_name (annotatePluginObj o2 c2 j).
Proof.
  cbn [annotatePluginObj p_name].
  rewrite (annotate_name_unnamed o1 c1 i), (annotate_name_unnamed o2 c2 j) by assumption.
  intros H. apply Hij, nat_to_string_inj. now injection H.
Qed.

(** A second [getResults] returns the same results as the first and
    leaves the state as the first left it. *)
Theorem getResults_twice st :
  let st1 := snd (fst (getResults st)) in
  fst (fst (getResults st1)) = fst (fst (getResults st)) /\
  snd (fst (getResults st1)) = st1.
Proof.
  destruct (getResults_report st) as (l & E). cbv zeta. rewrite E. cbn [fst snd].
  destruct (getResults_report (mkState (assertions st) true)) as (l' & E').
  rewrite E'. cbn [fst snd assertions]. split; reflexivity.
Qed.

(** Every loaded object gets a non-empty name. *)
Theorem plugin_name_nonempty raw c i : p_name (annotatePluginObj raw c i) <> "".
Proof.
  cbn [annotatePluginObj p_name]. pose proof (annotate_name_truthy raw c i) as H.
  intros E. rewrite E in H. discriminate H.
Qed.

(** ** Witnesses *)

Lemma Plugins_new_no_source_witness :
  truthy_opt (c_path (mkConfig None None false None)) = false /\
  truthy_opt (c_package (mkConfig None None false None)) = false /\
  (exists y, fst (Plugins_new rfp0 req0 "" (Some [(conf0, Some (0, raw0));
                                                  (mkConfig None None false None, None)]))
             = Throws y) /\
  fst (Plugins_new rfp0 req0 "" (Some [(mkConfig None None false None, None)])) =
    Throws config_error.
Proof.
  split; [reflexivity|split; [reflexivity|]].
  apply (Plugins_new_no_source rfp0 req0 "" [(conf0, Some (0, raw0))] []
           (mkConfig None None false None) eq_refl eq_refl).
Defined.

Lemma Plugins_new_bad_path_witness :
  rfp0 "p.js" true "" = [] /\
  (exists y, fst (Plugins_new rfp0 req0 "" (Some [(mkConfig (Some "p.js") None false None, None)]))
             = Throws y) /\
  fst (Plugins_new rfp0 req0 "" (Some [(mkConfig (Some "p.js") None false None, None)])) =
    Throws (error_obj ("Invalid path to plugin: " ++ "p.js")).
Proof.
  split; [reflexivity|].
  apply (Plugins_new_bad_path rfp0 req0 "" [] [] (mkConfig (Some "p.js") None false None)
           None "p.js" eq_refl eq_refl eq_refl).
Defined.

Lemma Plugins_new_distinct_witness :
  NoDup [0; 1] /\
  fst (Plugins_new rfp0 req0 "" (Some [(conf0, Some (0, raw0)); (conf0, Some (1, raw0))])) =
    Ok (annotate_all (map fst [(conf0, Some (0, raw0)); (conf0, Some (1, raw0))])
                     (map snd [(0, raw0); (1, raw0)]) 0).
Proof.
  split; [repeat constructor; cbn; intuition discriminate|].
  apply (Plugins_new_distinct rfp0 req0 "" _ [(0, raw0); (1, raw0)]);
    [repeat constructor | repeat constructor; cbn; intuition discriminate].
Defined.

Lemma Plugins_new_shared_object_witness :
  plugin_object rfp0 req0 "" (conf0, Some (0, raw0)) = Ok (0, raw0) /\
  exists q, fst (Plugins_new rfp0 req0 "" (Some [(conf0, Some (0, raw0));
                                                 (conf0, Some (0, raw0))])) = Ok [q; q] /\
    p_name q = annotate_name raw0 conf0 0 /\ p_config q = conf0.
Proof.
  split; [reflexivity|].
  apply (Plugins_new_shared_object rfp0 req0 "" (conf0, Some (0, raw0))
           (conf0, Some (0, raw0)) 0 raw0 eq_refl eq_refl).
Defined.

Lemma addSuccess_appends_witness :
  inherited (spec_name_of pA None) = false /\
  store_lookup (assertions (base (snd (fst (inst_addSuccess pA None inst_initial)))))
    "A Plugin Tests" = [mkAssertion true None None].
Proof.
  split; [reflexivity|].
  destruct (addSuccess_appends pA None inst_initial eq_refl eq_refl) as [_ H].
  rewrite H. reflexivity.
Defined.

Lemma failure_count_steps_witness :
  inherited (spec_name_of pA None) = false /\
  total_failed (assertions (base (inst_step (OpAddFailure pA (JStr "x") None) inst_initial)))
    = 1.
Proof.
  split; [reflexivity|].
  destruct (failure_count_steps pA (JStr "x") None inst_initial eq_refl eq_refl) as [H _].
  rewrite H. reflexivity.
Defined.


Lemma function_entry_blocks_report_witness :
  fn_keys (snd (fst (inst_addSuccess pA (Some ctor_info) inst_initial))) <> [] /\
  resultsReported (base (inst_run_ops [OpGetResults; OpAddSuccess pA None]
                           (snd (fst (inst_addSuccess pA (Some ctor_info) inst_initial)))))
    = false.
Proof.
  assert (Hfn : fn_keys (snd (fst (inst_addSuccess pA (Some ctor_info) inst_initial))) <> [])
    by (vm_compute; discriminate).
  split; [exact Hfn|].
  destruct (function_entry_blocks_report [OpGetResults; OpAddSuccess pA None] _ Hfn)
    as [H _].
  rewrite H. reflexivity.
Defined.

Lemma logError_open_record_witness :
  get_message (error_obj "boom") = Some (JStr "boom") /\
  logError pA "setup" JUndef (error_obj "boom") initial_state =
    (Ok JUndef,
     mkState [("A Plugin Tests",
               [mkAssertion false (Some (JStr (failure_message "setup" (JStr "boom")))) None])]
       false, []).
Proof.
  split; [reflexivity|].
  apply (logError_open_record pA "setup" JUndef (error_obj "boom") initial_state
           (JStr "boom") None eq_refl eq_refl eq_refl).
Defined.

Lemma logError_reported_log_witness :
  resultsReported (mkState [] true) = true /\
  logError pA "setup" JUndef (JObj (Some "boom") (Some "at x") "Error: boom")
           (mkState [] true) =
    (Ok JUndef, mkState [] true,
     [tab ++ "Fail: A Runtime"; tab ++ tab ++ failure_message "setup" (JStr "boom");
      tab ++ tab ++ "at x"]).
Proof.
  split; [reflexivity|].
  apply (logError_reported_log pA "setup" JUndef (JObj (Some "boom") (Some "at x") "Error: boom") (mkState [] true) (JStr "boom")
           (Some "at x") eq_refl eq_refl eq_refl).
Defined.

Lemma dispatch_no_hook_witness :
  has_hook pB "setup" = false /\
  pluginFunFactory "setup" Q JUndef [pB] [] initial_state = (Ok [], initial_state, []) /\
  promise_all [] [0] initial_state = (Ok (Some []), initial_state, []).
Proof.
  split; [reflexivity|].
  apply (dispatch_no_hook "setup" Q JUndef [pB] [] initial_state [0]).
  repeat constructor.
Defined.

Lemma report_all_pass_witness :
  forallb passed [mkAssertion true None None] = true /\
  printPluginResults [("s", [mkAssertion true None None])] initial_state =
    (Ok tt, initial_state, [tab ++ "Pass: s"]).
Proof.
  split; [reflexivity|].
  apply (report_all_pass [("s", [mkAssertion true None None])] initial_state).
  repeat constructor.
Defined.

Lemma fallback_names_distinct_witness :
  truthy_opt (r_name raw0) = false /\
  p_name (annotatePluginObj raw0 (mkConfig None None true None) 1) <>
  p_name (annotatePluginObj raw0 (mkConfig None (Some "") true None) 10).
Proof.
  split; [reflexivity|].
  apply (fallback_names_distinct raw0 _ 1 raw0 _ 10); try reflexivity. discriminate.
Defined.
